(** * Mixtape's metastable switching LDS: the EM orchestrator

    A shallow embedding of [Mixtape/mslds.py] (class
    [MetastableSwitchingLDS]) and the properties of its hot start, its
    restart loop, its scorer, its sampler and its metastable wells.

    Conventions of the embedding.
    - numpy's floating-point numbers are read as exact rationals ([rat]):
      the [float32] casts of the property setters are the identity and no
      rounding is modelled. The one exception is the section on the
      float32 stores of the hot start, which evaluates the values that
      the arrays [As_] and [bs_] hold.
    - [n_features] is the dimension [D] of the vector and matrix types, so
      every array has the feature dimension the constructor was given.
    - An array of [n_states] vectors or matrices is a [seq]; a store
      [a[i] = x] is checked against the length, as numpy does.
    - A method runs in a state-and-exception monad: an exception leaves
      the mutations made before it in place, as in Python.
    - The engine object [_impl] receives from every property setter the
      very array the model keeps ([self._As_ = value; self._impl.As_ =
      value]), so one slot stands for both references.
    - The calls into code that is not part of the class (k-means, the
      covariance estimate, the engine's E-step, the random draws) are the
      fields of an environment record [env]. *)

From HB Require Import structures.
From Stdlib Require Import String ZArith QArith Qabs Qround.
From mathcomp Require Import boot order algebra.

Set Implicit Arguments.
Unset Strict Implicit.
Unset Printing Implicit Defensive.

Import Order.TTheory GRing.Theory Num.Theory.
Local Open Scope ring_scope.

(** The binary integers and rationals of the float32 stores ([Z], [Q])
    keep scopes of their own. *)
Delimit Scope Z_scope with bZ.
Delimit Scope Q_scope with bQ.

(** ** Exceptions and outcomes *)

(** The exception classes met on the paths of the class.
    [InitializationError] is named by the specification's error taxonomy
    only: no statement of the source raises it. *)
Inductive exn :=
  | ValueError
  | IndexError
  | KeyError
  | NameError
  | AttributeError
  | TypeError
  | ZeroDivisionError
  | LinAlgError
  | InitializationError.

Inductive outcome (A : Type) :=
  | Ok (a : A)
  | Raise (e : exn).

Arguments Ok {A} a.
Arguments Raise {A} e.

Definition returns (A : Type) (r : outcome A) : bool :=
  if r is Ok _ then true else false.

(** ** The state-and-exception monad *)

Section Monad.

Variable S : Type.

Definition M (A : Type) := S -> outcome A * S.

Definition ret (A : Type) (a : A) : M A := fun s => (Ok a, s).

Definition raise (A : Type) (e : exn) : M A := fun s => (Raise e, s).

Definition bind (A B : Type) (m : M A) (f : A -> M B) : M B :=
  fun s => match m s with
           | (Ok a, s') => f a s'
           | (Raise e, s') => (Raise e, s')
           end.

Definition lift (A : Type) (r : outcome A) : M A := fun s => (r, s).

Definition get : M S := fun s => (Ok s, s).

Definition modify (f : S -> S) : M unit := fun s => (Ok tt, f s).

(** [for i in its: body i], left to right, stopping at the first
    exception. *)
Fixpoint for_ (its : seq nat) (body : nat -> M unit) : M unit :=
  match its with
  | [::] => ret tt
  | i :: its' => bind (body i) (fun _ => for_ its' body)
  end.

End Monad.

Arguments ret {S A} a.
Arguments raise {S A} e.
Arguments lift {S A} r.
Arguments get {S}.

Declare Scope py_scope.
Delimit Scope py_scope with py.
Notation "x <- m ;; k" := (bind m (fun x => k))
  (at level 61, m at next level, right associativity) : py_scope.
Notation "m ;;; k" := (bind m (fun _ => k))
  (at level 61, right associativity) : py_scope.
Local Open Scope py_scope.

(** ** Arrays *)

Definition vec (D : nat) := 'cV[rat]_D.
Definition mat (D : nat) := 'M[rat]_D.

(** [a[i]]: an index past the end raises [IndexError]. *)
Fixpoint getitem (T : Type) (a : seq T) (i : nat) : outcome T :=
  match a, i with
  | [::], _ => Raise IndexError
  | x :: _, 0%N => Ok x
  | _ :: a', i'.+1 => getitem a' i'
  end.

(** The array [a] after [a[i] = x], where the index is in range. *)
Fixpoint upd (T : Type) (a : seq T) (i : nat) (x : T) : seq T :=
  match a, i with
  | [::], _ => [::]
  | _ :: a', 0%N => x :: a'
  | y :: a', i'.+1 => y :: upd a' i' x
  end.

(** [a[i] = x]: numpy checks the index. *)
Definition setitem (T : Type) (a : seq T) (i : nat) (x : T) : outcome (seq T) :=
  if (i < size a)%N then Ok (upd a i x) else Raise IndexError.

(** Subscripting an attribute that still holds [None] raises
    [TypeError]. *)
Definition subscriptable (T : Type) (slot : option T) : outcome T :=
  if slot is Some a then Ok a else Raise TypeError.

(** ** Log-likelihoods *)

(** A log-likelihood is a number or [-np.inf], the initial best score. *)
Inductive logp :=
  | NegInf
  | Fin (x : rat).

(** [a > b]. *)
Definition logp_gt (a b : logp) : bool :=
  match a, b with
  | Fin x, Fin y => y < x
  | Fin _, NegInf => true
  | NegInf, _ => false
  end.

(** ** The model object *)

(** The constructor's arguments; [n_features] is [D]. *)
Record config := Config {
  n_states : nat;
  n_init : nat;
  n_hotstart_sequences : nat;
  params : string;
  n_em_iter : nat;
  n_hotstart : nat
}.

(** [self.eps = .2] *)
Definition eps : rat := 2%:R / 10%:R.

(** The attribute slots of an instance. A slot is [None] until it is
    first assigned; [vars_] and [fit_logprob_] are the two attributes the
    last lines of [fit] create. *)
Record obj (D : nat) := Obj {
  _sequences : option (seq (seq (vec D)));
  _means_ : option (seq (vec D));
  _covars_ : option (seq (mat D));
  _As_ : option (seq (mat D));
  _bs_ : option (seq (vec D));
  _Qs_ : option (seq (mat D));
  _transmat_ : option (seq (seq rat));
  _populations_ : option (seq rat);
  vars_ : option (seq (mat D));
  fit_logprob_ : option (seq logp)
}.

(** The instance as [__init__] leaves it. *)
Definition fresh (D : nat) : obj D :=
  Obj None None None None None None None None None None.

Section Slots.

Variable D : nat.
Implicit Types (o : obj D).

Definition with_sequences v o :=
  Obj v (_means_ o) (_covars_ o) (_As_ o) (_bs_ o) (_Qs_ o)
      (_transmat_ o) (_populations_ o) (vars_ o) (fit_logprob_ o).
Definition with_means v o :=
  Obj (_sequences o) v (_covars_ o) (_As_ o) (_bs_ o) (_Qs_ o)
      (_transmat_ o) (_populations_ o) (vars_ o) (fit_logprob_ o).
Definition with_covars v o :=
  Obj (_sequences o) (_means_ o) v (_As_ o) (_bs_ o) (_Qs_ o)
      (_transmat_ o) (_populations_ o) (vars_ o) (fit_logprob_ o).
Definition with_As v o :=
  Obj (_sequences o) (_means_ o) (_covars_ o) v (_bs_ o) (_Qs_ o)
      (_transmat_ o) (_populations_ o) (vars_ o) (fit_logprob_ o).
Definition with_bs v o :=
  Obj (_sequences o) (_means_ o) (_covars_ o) (_As_ o) v (_Qs_ o)
      (_transmat_ o) (_populations_ o) (vars_ o) (fit_logprob_ o).
Definition with_Qs v o :=
  Obj (_sequences o) (_means_ o) (_covars_ o) (_As_ o) (_bs_ o) v
      (_transmat_ o) (_populations_ o) (vars_ o) (fit_logprob_ o).
Definition with_transmat v o :=
  Obj (_sequences o) (_means_ o) (_covars_ o) (_As_ o) (_bs_ o) (_Qs_ o)
      v (_populations_ o) (vars_ o) (fit_logprob_ o).
Definition with_populations v o :=
  Obj (_sequences o) (_means_ o) (_covars_ o) (_As_ o) (_bs_ o) (_Qs_ o)
      (_transmat_ o) v (vars_ o) (fit_logprob_ o).
Definition with_vars v o :=
  Obj (_sequences o) (_means_ o) (_covars_ o) (_As_ o) (_bs_ o) (_Qs_ o)
      (_transmat_ o) (_populations_ o) v (fit_logprob_ o).
Definition with_fit_logprob v o :=
  Obj (_sequences o) (_means_ o) (_covars_ o) (_As_ o) (_bs_ o) (_Qs_ o)
      (_transmat_ o) (_populations_ o) (vars_ o) v.

End Slots.

(** ** What runs around the object *)

(** The calls the trace records: the engine's E-step of iteration [i]
    with the log-likelihood it returned, and a completed M-step. *)
Inductive event :=
  | EStep (i : nat) (lp : logp)
  | MStep (i : nat).

(** The object, numpy's global random state and the trace of calls. *)
Record world (D : nat) (G : Type) := World {
  self : obj D;
  rng : G;
  trace : seq event
}.

(** The code outside the class.
    - [kmeans_centers g k X]: the [cluster_centers_] that sklearn's
      [KMeans(n_clusters=k).fit(X)] finds from the random state [g].
    - [np_cov X]: [np.cov(X.T)].
    - [do_estep cfg o i]: [MetastableSLDSCPUImpl.do_estep(i)] of the
      engine built for [cfg], on the arrays and sequences it was handed;
      the specification has it compute the log-likelihood and the
      sufficient statistics from them.
    - [categorical p g] and [multivariate_normal m c g]: the draws of
      [mixtape.utils.categorical] and [numpy.random.multivariate_normal];
      [categorical] receives the attribute as it is, [None] included. *)
Record env (D : nat) (G stats : Type) := Env {
  kmeans_centers : G -> nat -> seq (vec D) -> seq (vec D) * G;
  np_cov : seq (vec D) -> mat D;
  do_estep : config -> obj D -> nat -> outcome (logp * stats);
  categorical : option (seq rat) -> G -> outcome nat * G;
  multivariate_normal : vec D -> mat D -> G -> outcome (vec D) * G
}.

(** What an M-step bound to [_do_mstep] would be: called with the
    statistics, [set(self.params)] (given by the string it is built from)
    and the iteration number, it updates the instance or raises. *)
Definition mstep_fn (D : nat) (stats : Type) :=
  config -> stats -> string -> nat -> obj D -> outcome unit * obj D.

(** The class of the instance, as far as [fit] looks attributes up on it:
    what the name [_do_mstep] resolves to, if anything. *)
Record klass (D : nat) (stats : Type) := Klass {
  do_mstep_attr : option (mstep_fn D stats)
}.

(** The class of the source defines [__init__], [_init], [sample],
    [score], [fit], [compute_metastable_wells],
    [compute_process_covariances], [compute_eigenspectra] and seven
    properties; [__init__] sets no [_do_mstep] either. *)
Definition MetastableSwitchingLDS (D : nat) (stats : Type) : klass D stats :=
  Klass None.

(** The value of [best_fit['params']] once a restart has been recorded:
    the attributes as read at the end of that restart, and the restart's
    trajectory. *)
Record snapshot (D : nat) := Snapshot {
  p_means : option (seq (vec D));
  p_covars : option (seq (mat D));
  p_As : option (seq (mat D));
  p_bs : option (seq (vec D));
  p_Qs : option (seq (mat D));
  p_populations : option (seq rat);
  p_transmat : option (seq (seq rat));
  p_fit_logprob : seq logp
}.

(** The local variables of [fit]. [best_params] is [None] while
    [best_fit['params']] is the empty dict; [curr_logprob] is [None]
    while the name is unbound. *)
Record locals (D : nat) := Locals {
  best_params : option (snapshot D);
  best_loglikelihood : logp;
  fit_logprob : seq logp;
  curr_logprob : option logp
}.

(** ** The methods *)

Section Methods.

Variables (D : nat) (G stats : Type) (E : env D G stats).

Local Notation W := (world D G).
Local Notation F := (locals D * world D G)%type.

Definition on_self (f : obj D -> obj D) : M W unit :=
  modify (fun w => World (f (self w)) (rng w) (trace w)).

Definition attr (T : Type) (slot : obj D -> T) : M W T :=
  fun w => (Ok (slot (self w)), w).

Definition record (ev : event) : M W unit :=
  modify (fun w => World (self w) (rng w) (rcons (trace w) ev)).

(** *** numpy, sklearn and mdtraj *)

(** [ensure_type(s, dtype=np.float32, ndim=2, name='s')]: a sequence of
    [D]-vectors already is a 2-d float array. *)
Definition ensure_type (s : seq (vec D)) : seq (vec D) := s.

(** [np.vstack] refuses an empty list of arrays. *)
Definition np_vstack (arrs : seq (seq (vec D))) : outcome (seq (vec D)) :=
  if arrs is [::] then Raise ValueError else Ok (flatten arrs).

(** [KMeans(n_clusters=k).fit(X).cluster_centers_]: sklearn refuses
    fewer samples than clusters with a [ValueError]. *)
Definition KMeans_fit (k : nat) (X : seq (vec D)) : M W (seq (vec D)) :=
  fun w =>
    if (size X < k)%N then (Raise ValueError, w)
    else let: (c, g) := kmeans_centers E (rng w) k X in
         (Ok c, World (self w) g (trace w)).

(** [distribute_covar_matrix_to_match_covariance_type(cv, 'full', k)] *)
Definition distribute_covar_full (cv : mat D) (k : nat) : seq (mat D) :=
  nseq k cv.

(** [c[c == 0] = 1e-5] on one matrix. *)
Definition floor_zeros (C : mat D) : mat D :=
  map_mx (fun x => if x == 0 then 1 / 100000%:R else x) C.

(** Python's [1.0 / k] for an int [k]. *)
Definition py_inv (k : nat) : outcome rat :=
  if k is 0%N then Raise ZeroDivisionError else Ok (1 / k%:R).

Definition np_eye : mat D := 1%:M.

(** [np.eye(n) - x] broadcasts the scalar over every entry. *)
Definition np_sub_scalar (A : mat D) (x : rat) : mat D := A - const_mx x.

Definition np_dot (A : mat D) (x : vec D) : vec D := A *m x.

(** [np.linalg.inv], read over exact numbers: the inverse of a regular
    matrix. LAPACK raises [LinAlgError] when its factorisation meets a
    pivot that is exactly zero, which over exact numbers is the case of
    a singular matrix; in floating point a singular matrix mostly gets a
    tiny non-zero pivot and numpy returns. The statements below use the
    inverse of regular matrices only. *)
Definition np_linalg_inv (A : mat D) : outcome (mat D) :=
  if A \in unitmx then Ok (invmx A) else Raise LinAlgError.

(** *** [_init]: the hot start *)

(** [self.As_[i] = np.eye(self.n_features) - self.eps] *)
Definition init_A (i : nat) : M W unit :=
  As <- attr (@_As_ D) ;;
  As <- lift (subscriptable As) ;;
  As <- lift (setitem As i (np_sub_scalar np_eye eps)) ;;
  on_self (with_As (Some As)).

(** [A = self.As_[i]; mean = self.means_[i];
     self.bs_[i] = np.dot(np.eye(self.n_features) - A, mean)] *)
Definition init_b (i : nat) : M W unit :=
  As <- attr (@_As_ D) ;;
  As <- lift (subscriptable As) ;;
  A <- lift (getitem As i) ;;
  means <- attr (@_means_ D) ;;
  means <- lift (subscriptable means) ;;
  mean <- lift (getitem means i) ;;
  bs <- attr (@_bs_ D) ;;
  bs <- lift (subscriptable bs) ;;
  bs <- lift (setitem bs i (np_dot (np_eye - A) mean)) ;;
  on_self (with_bs (Some bs)).

(** [self.Qs_[i] = self.eps * self.covars_[i]] *)
Definition init_Q (i : nat) : M W unit :=
  covars <- attr (@_covars_ D) ;;
  covars <- lift (subscriptable covars) ;;
  C <- lift (getitem covars i) ;;
  Qs <- attr (@_Qs_ D) ;;
  Qs <- lift (subscriptable Qs) ;;
  Qs <- lift (setitem Qs i (eps *: C)) ;;
  on_self (with_Qs (Some Qs)).

Definition _init (cfg : config) (sequences : seq (seq (vec D))) : M W unit :=
  let k := n_states cfg in
  let sequences := [seq ensure_type s | s <- sequences] in
  on_self (with_sequences (Some sequences)) ;;;
  small_dataset <-
    lift (np_vstack
            (take (minn (size sequences) (n_hotstart_sequences cfg))
                  sequences)) ;;
  centers <- KMeans_fit k small_dataset ;;
  on_self (with_means (Some centers)) ;;;
  let cv := np_cov E small_dataset in
  on_self (with_covars (Some (distribute_covar_full cv k))) ;;;
  covars <- attr (@_covars_ D) ;;
  covars <- lift (subscriptable covars) ;;
  on_self (with_covars (Some [seq floor_zeros C | C <- covars])) ;;;
  u <- lift (py_inv k) ;;
  on_self (with_transmat (Some (nseq k (nseq k u)))) ;;;
  on_self (with_populations (Some [seq x / k%:R | x <- nseq k 1])) ;;;
  on_self (with_As (Some (nseq k 0))) ;;;
  for_ (iota 0 k) init_A ;;;
  on_self (with_bs (Some (nseq k 0))) ;;;
  for_ (iota 0 k) init_b ;;;
  on_self (with_Qs (Some (nseq k 0))) ;;;
  for_ (iota 0 k) init_Q.

(** *** [score] *)

(** [self._impl.do_estep(i)], recorded in the trace when it returns. *)
Definition impl_do_estep (cfg : config) (i : nat) : M W (logp * stats) :=
  o <- attr id ;;
  r <- lift (do_estep E cfg o i) ;;
  record (EStep i r.1) ;;;
  ret r.

Definition score (cfg : config) (sequences : seq (seq (vec D))) : M W logp :=
  let sequences := [seq ensure_type s | s <- sequences] in
  on_self (with_sequences (Some sequences)) ;;;
  r <- impl_do_estep cfg (n_em_iter cfg) ;;
  ret r.1.

(** *** [sample] *)

(** A loop that threads its local variables. *)
Fixpoint for_acc (S L : Type) (its : seq nat) (body : nat -> L -> M S L)
    (l : L) : M S L :=
  match its with
  | [::] => ret l
  | i :: its' => l' <- body i l ;; for_acc its' body l'
  end.

Definition draw (T : Type) (d : G -> outcome T * G) : M W T :=
  fun w => let: (r, g) := d (rng w) in (r, World (self w) g (trace w)).

Section Sample.

(** The array store of [sample]; [setitem] in the method itself. *)
Variable store : forall T : Type, seq T -> nat -> T -> outcome (seq T).

(** One time update, for [t] in [range(n_samples - 1)]. *)
Definition sample_step (t : nat) (l : seq (vec D) * seq nat)
    : M W (seq (vec D) * seq nat) :=
  let: (obs, hidden_state) := l in
  s <- lift (getitem hidden_state t) ;;
  As <- attr (@_As_ D) ;;
  As <- lift (subscriptable As) ;;
  A <- lift (getitem As s) ;;
  bs <- attr (@_bs_ D) ;;
  bs <- lift (subscriptable bs) ;;
  b <- lift (getitem bs s) ;;
  Qs <- attr (@_Qs_ D) ;;
  Qs <- lift (subscriptable Qs) ;;
  Q <- lift (getitem Qs s) ;;
  x <- lift (getitem obs t) ;;
  y <- draw (multivariate_normal E (np_dot A x + b) Q) ;;
  obs <- lift (store obs t.+1 y) ;;
  transmat <- attr (@_transmat_ D) ;;
  transmat <- lift (subscriptable transmat) ;;
  row <- lift (getitem transmat s) ;;
  s' <- draw (categorical E (Some row)) ;;
  hidden_state <- lift (store hidden_state t.+1 s') ;;
  ret (obs, hidden_state).

Definition sample_with (n_samples : nat) (init_state : option nat)
    (init_obs : option (vec D)) : M W (seq (vec D) * seq nat) :=
  let obs := nseq n_samples (0 : vec D) in
  let hidden_state := nseq n_samples 0%N in
  hidden_state <-
    (if init_state is Some s then lift (store hidden_state 0%N s)
     else
       populations <- attr (@_populations_ D) ;;
       s <- draw (categorical E populations) ;;
       lift (store hidden_state 0%N s)) ;;
  obs <-
    (if init_obs is Some x then lift (store obs 0%N x)
     else
       means <- attr (@_means_ D) ;;
       s <- lift (getitem hidden_state 0%N) ;;
       means <- lift (subscriptable means) ;;
       mean <- lift (getitem means s) ;;
       covars <- attr (@_covars_ D) ;;
       s <- lift (getitem hidden_state 0%N) ;;
       covars <- lift (subscriptable covars) ;;
       covar <- lift (getitem covars s) ;;
       x <- draw (multivariate_normal E mean covar) ;;
       lift (store obs 0%N x)) ;;
  for_acc (iota 0 (n_samples - 1)) sample_step (obs, hidden_state).

End Sample.

Definition sample := sample_with setitem.

(** The same method with stores that check nothing. *)
Definition sample_unchecked :=
  sample_with (fun T (a : seq T) i x => Ok (upd a i x)).

(** *** [compute_metastable_wells] *)

(** [wells[i] = np.dot(np.linalg.inv(np.eye(self.n_features) -
                                     self.As_[i]), self.bs_[i])] *)
Definition well_step (i : nat) (wells : seq (vec D)) : M W (seq (vec D)) :=
  As <- attr (@_As_ D) ;;
  As <- lift (subscriptable As) ;;
  A <- lift (getitem As i) ;;
  inv <- lift (np_linalg_inv (np_eye - A)) ;;
  bs <- attr (@_bs_ D) ;;
  bs <- lift (subscriptable bs) ;;
  b <- lift (getitem bs i) ;;
  lift (setitem wells i (np_dot inv b)).

Definition compute_metastable_wells (cfg : config) : M W (seq (vec D)) :=
  for_acc (iota 0 (n_states cfg)) well_step (nseq (n_states cfg) 0).

(** *** [fit] *)

Definition in_world (T : Type) (m : M W T) : M F T :=
  fun s => let: (r, w) := m s.2 in (r, (s.1, w)).

Definition on_locals (f : locals D -> locals D) : M F unit :=
  modify (fun s => (f s.1, s.2)).

(** [self._do_mstep]: the attribute lookup. *)
Definition getattr_do_mstep (cls : klass D stats)
    : outcome (mstep_fn D stats) :=
  if do_mstep_attr cls is Some m then Ok m else Raise AttributeError.

Definition call_mstep (m : mstep_fn D stats) (cfg : config) (st : stats)
    (i : nat) : M W unit :=
  fun w =>
    match m cfg st (params cfg) i (self w) with
    | (Ok _, o) => (Ok tt, World o (rng w) (rcons (trace w) (MStep i)))
    | (Raise e, o) => (Raise e, World o (rng w) (trace w))
    end.

(** The body of [for i in range(self.n_em_iter)]. *)
Definition em_iteration (cls : klass D stats) (cfg : config) (i : nat)
    : M F unit :=
  r <- in_world (impl_do_estep cfg i) ;;
  on_locals (fun l => Locals (best_params l) (best_loglikelihood l)
                             (fit_logprob l) (Some r.1)) ;;;
  (if (n_hotstart cfg <= i)%N then
     on_locals (fun l => Locals (best_params l) (best_loglikelihood l)
                                (rcons (fit_logprob l) r.1) (curr_logprob l))
   else ret tt) ;;;
  m <- lift (getattr_do_mstep cls) ;;
  in_world (call_mstep m cfg r.2 i).

(** The dict literal that [fit] stores in [best_fit['params']]. *)
Definition take_snapshot (o : obj D) (fl : seq logp) : snapshot D :=
  Snapshot (_means_ o) (_covars_ o) (_As_ o) (_bs_ o) (_Qs_ o)
           (_populations_ o) (_transmat_ o) fl.

(** The body of [for r in range(self.n_init)]. *)
Definition restart (cls : klass D stats) (cfg : config)
    (sequences : seq (seq (vec D))) (r : nat) : M F unit :=
  on_locals (fun l => Locals (best_params l) (best_loglikelihood l)
                             [::] (curr_logprob l)) ;;;
  in_world (_init cfg sequences) ;;;
  for_ (iota 0 (n_em_iter cfg)) (em_iteration cls cfg) ;;;
  s <- get ;;
  curr <- lift (if curr_logprob s.1 is Some c then Ok c
                else Raise NameError) ;;
  if logp_gt curr (best_loglikelihood s.1) then
    on_locals (fun l =>
      Locals (Some (take_snapshot (self s.2) (fit_logprob l))) curr
             (fit_logprob l) (curr_logprob l))
  else ret tt.

(** The assignments after the loop, in the order of the source; the
    second one writes the attribute [vars_]. *)
Definition set_final_values (p : snapshot D) (o : obj D) : obj D :=
  with_fit_logprob (Some (p_fit_logprob p))
    (with_populations (p_populations p)
      (with_transmat (p_transmat p)
        (with_Qs (p_Qs p)
          (with_bs (p_bs p)
            (with_As (p_As p)
              (with_vars (p_covars p)
                (with_means (p_means p) o))))))).

(** The state of [fit] when the restart loop starts. *)
Definition fit_entry : locals D := Locals None NegInf [::] None.

Definition fit_restarts (cls : klass D stats) (cfg : config)
    (sequences : seq (seq (vec D))) : M F unit :=
  for_ (iota 0 (n_init cfg)) (restart cls cfg sequences).

Definition fit (cls : klass D stats) (cfg : config)
    (sequences : seq (seq (vec D))) : M W unit :=
  fun w =>
    match fit_restarts cls cfg sequences (fit_entry, w) with
    | (Raise e, s) => (Raise e, s.2)
    | (Ok _, s) =>
        match best_params s.1 with
        | None => (Raise KeyError, s.2)
        | Some p => (Ok tt, World (set_final_values p (self s.2))
                                  (rng s.2) (trace s.2))
        end
    end.

End Methods.

(** ** Closed forms used by the statements *)

(** The matrix [_init] stores in every [As_[i]], before the rounding of
    the store into the float32 array (see [init_A32] for the values
    stored). *)
Definition A_init (D : nat) : mat D := np_sub_scalar (np_eye D) eps.

Section ClosedForms.

Variables (D : nat) (G stats : Type) (E : env D G stats).

(** The arrays handed to [np.vstack]. *)
Definition hot_start_pool (cfg : config) (sequences : seq (seq (vec D))) :=
  take (minn (size sequences) (n_hotstart_sequences cfg)) sequences.

(** The state a hot start that returns leaves behind. *)
Definition hot_start (cfg : config) (sequences : seq (seq (vec D)))
    (w : world D G) : world D G :=
  let k := n_states cfg in
  let pool := flatten (hot_start_pool cfg sequences) in
  let: (centers, g) := kmeans_centers E (rng w) k pool in
  let covar := floor_zeros (np_cov E pool) in
  World (Obj (Some sequences) (Some centers) (Some (nseq k covar))
             (Some (nseq k (A_init D)))
             (Some (mkseq (fun i => np_dot (np_eye D - A_init D)
                                            (nth 0 centers i)) k))
             (Some (nseq k (eps *: covar)))
             (Some (nseq k (nseq k (1 / k%:R))))
             (Some (nseq k (1 / k%:R)))
             (vars_ (self w)) (fit_logprob_ (self w)))
        g (trace w).

(** The hot start failed before it assigned a parameter: only the
    engine's sequences were replaced. *)
Definition only_sequences (sequences : seq (seq (vec D))) (w : world D G)
    : world D G :=
  World (with_sequences (Some sequences) (self w)) (rng w) (trace w).

End ClosedForms.

(** A probability vector: non-negative entries that sum to one. *)
Definition distribution (p : seq rat) : bool :=
  all (fun x => 0 <= x) p && (\sum_(x <- p) x == 1).

(** The transition matrix is row-stochastic and the populations are a
    distribution. *)
Definition stochastic (D : nat) (o : obj D) : bool :=
  match _transmat_ o, _populations_ o with
  | Some tm, Some p => all distribution tm && distribution p
  | _, _ => false
  end.

(** Modelled from the spec: the M-step [_do_mstep], which [fit] calls
    and the class does not define. Its transition matrix and populations
    are ratios of expected counts, smoothed so that no row is empty:
    an M-step that returns leaves them stochastic. *)
Definition mstep_keeps_stochastic (D : nat) (stats : Type)
    (m : mstep_fn D stats) : Prop :=
  forall cfg st p i o o',
    stochastic o -> m cfg st p i o = (Ok tt, o') -> stochastic o'.

(** The log-likelihoods a trace contributes to the tracked trajectory:
    those of the E-steps of iteration [n_hotstart] and later. *)
Definition tracked (cfg : config) (evs : seq event) : seq logp :=
  pmap (fun ev => if ev is EStep i lp then
                    if (n_hotstart cfg <= i)%N then Some lp else None
                  else None) evs.

(** The iteration numbers of the E-steps of a trace. *)
Definition estep_iterations (evs : seq event) : seq nat :=
  pmap (fun ev => if ev is EStep i _ then Some i else None) evs.

(** The M-steps of a trace. *)
Definition mstep_iterations (evs : seq event) : seq nat :=
  pmap (fun ev => if ev is MStep i then Some i else None) evs.

(** ** Notions used by the statements *)

(** The seven model parameters of an instance. *)
Definition model_params (D : nat) (o : obj D) :=
  (_As_ o, _bs_ o, _Qs_ o, _means_ o, _covars_ o, _transmat_ o,
   _populations_ o).

(** [(I - A)^-1 b], the well of a state whose [I - A] is invertible. *)
Definition well (D : nat) (A : mat D) (b : vec D) : vec D :=
  invmx (1%:M - A) *m b.

(** The difference of the first and the last unit row vector. *)
Definition spread (n : nat) : 'rV[rat]_n.+2 :=
  delta_mx 0 ord0 - delta_mx 0 ord_max.

(** The outer product of a vector with itself. *)
Definition outer (d : nat) (m : vec d) : mat d := m *m m^T.

(** The log-likelihoods of the E-steps of a trace, in order. *)
Definition estep_logps (evs : seq event) : seq logp :=
  pmap (fun ev => if ev is EStep _ lp then Some lp else None) evs.

Section FitStates.

Variables (D : nat) (G : Type).
Implicit Types (cfg : config) (l : locals D) (w : world D G).

(** The locals after the E-step of iteration [i] returned [lp]. *)
Definition after_estep cfg i lp l : locals D :=
  Locals (best_params l) (best_loglikelihood l)
         (if (n_hotstart cfg <= i)%N then rcons (fit_logprob l) lp
          else fit_logprob l)
         (Some lp).

(** The world after a call was recorded in the trace. *)
Definition logged (ev : event) w : world D G :=
  World (self w) (rng w) (rcons (trace w) ev).

(** The locals of a restart when it starts: [fit_logprob = []]. *)
Definition restart_entry l : locals D :=
  Locals (best_params l) (best_loglikelihood l) [::] (curr_logprob l).

(** The locals after the comparison that ends a restart. *)
Definition record_best (o : obj D) c l : locals D :=
  if logp_gt c (best_loglikelihood l) then
    Locals (Some (take_snapshot o (fit_logprob l))) c (fit_logprob l)
           (curr_logprob l)
  else l.

(** A computation that leaves the trace as it found it. *)
Definition keeps_trace (T : Type) (m : M (world D G) T) : Prop :=
  forall w, trace (m w).2 = trace w.

(** The transition matrix and populations of a recorded snapshot are
    stochastic. *)
Definition snapshot_stochastic (p : snapshot D) : bool :=
  match p_transmat p, p_populations p with
  | Some tm, Some pp => all distribution tm && distribution pp
  | _, _ => false
  end.

End FitStates.

(** ** A concrete environment

    A deterministic stand-in for the libraries, used to run the methods
    on explicit inputs: the random state is a counter, k-means returns
    [k] copies of the constant vector of the counter's value, the
    covariance estimate is the identity, the E-step scores a model by
    the negated first coordinate of its first mean, and every draw
    returns its location. *)

Section Concrete.

Variable d : nat.

Definition demo_kmeans (g : nat) (k : nat) (X : seq (vec d.+1)) :=
  (nseq k (const_mx g%:R : vec d.+1), g.+1).

Definition demo_cov (X : seq (vec d.+1)) : mat d.+1 := 1%:M.

Definition demo_estep (cfg : config) (o : obj d.+1) (i : nat)
    : outcome (logp * unit) :=
  if _means_ o is Some (m :: _) then Ok (Fin (- m ord0 ord0), tt)
  else Raise TypeError.

Definition demo_categorical (p : option (seq rat)) (g : nat)
    : outcome nat * nat :=
  (Ok 0%N, g.+1).

Definition demo_normal (m : vec d.+1) (c : mat d.+1) (g : nat)
    : outcome (vec d.+1) * nat :=
  (Ok m, g.+1).

Definition demo_env : env d.+1 nat unit :=
  Env demo_kmeans demo_cov demo_estep demo_categorical demo_normal.

(** An M-step for a subclass to bind to [_do_mstep]: it replaces each
    covariance by the outer product of the state's mean. *)
Definition demo_mstep : mstep_fn d.+1 unit :=
  fun cfg st p i o =>
    (Ok tt, with_covars (omap (map (@outer d.+1)) (_means_ o)) o).

Definition demo_class : klass d.+1 unit := Klass (Some demo_mstep).





(** A sequence of one point and a sequence of two. *)
Definition one_point : seq (vec d.+1) := [:: const_mx 1].
Definition two_points : seq (vec d.+1) := [:: const_mx 1; const_mx 2%:R].

Definition demo_world : world d.+1 nat := World (fresh d.+1) 0%N [::].

End Concrete.

(** [MetastableSwitchingLDS(n_states=k, n_features=.., n_init=r,
    n_em_iter=n, n_hotstart=h)], the other arguments at their
    defaults. *)
Definition demo_cfg (k r n h : nat) : config :=
  Config k r 10 "tmcqab" n h.

(** A model of two states and two features: [A[0] = 0], [A[1] = I / 2],
    [b[0] = b[1] = (1, 1)]. *)
Definition two_wells : obj 2 :=
  Obj None None None (Some [:: 0; (1 / 2%:R)%:M])
      (Some [:: const_mx 1; const_mx 1]) None None None None None.

(** A model of one state in the concrete environment. *)
Definition demo_model (d : nat) : obj d.+1 :=
  Obj None (Some [:: 0]) (Some [:: 1%:M]) (Some [:: A_init d.+1])
      (Some [:: 0]) (Some [:: 1%:M]) (Some [:: [:: 1]]) (Some [:: 1])
      None None.

(** ** The process covariances and the notions of further statements *)

Section ProcessCovariances.

Variables (D : nat) (G : Type).

(** [A = self.As_[k]; Q = self.Qs_[k]; V = iter_vars(A, Q, N);
     covs[k] = V]. [iter_vars] is imported from [mixtape.utils]: it is an
    argument here, a function of its three arguments that returns a matrix
    or raises. *)
Definition cov_step (iter_vars : mat D -> mat D -> nat -> outcome (mat D))
    (N : nat) (k : nat) (covs : seq (mat D)) : M (world D G) (seq (mat D)) :=
  As <- attr (@_As_ D) ;;
  As <- lift (subscriptable As) ;;
  A <- lift (getitem As k) ;;
  Qs <- attr (@_Qs_ D) ;;
  Qs <- lift (subscriptable Qs) ;;
  Q <- lift (getitem Qs k) ;;
  V <- lift (iter_vars A Q N) ;;
  lift (setitem covs k V).

(** [covs = np.zeros((self.n_states, self.n_features, self.n_features));
     for k in range(self.n_states): ...; return covs] *)
Definition compute_process_covariances
    (iter_vars : mat D -> mat D -> nat -> outcome (mat D)) (cfg : config)
    (N : nat) : M (world D G) (seq (mat D)) :=
  for_acc (iota 0 (n_states cfg)) (cov_step iter_vars N)
          (nseq (n_states cfg) 0).

End ProcessCovariances.

(** The trace of the completed EM iterations [j], [j + 1], ... whose
    E-steps returned the log-likelihoods [lps]. *)
Fixpoint em_events (j : nat) (lps : seq logp) : seq event :=
  if lps is lp :: lps' then EStep j lp :: MStep j :: em_events j.+1 lps'
  else [::].

(** A model of [K] states: the arrays the sampler reads have [K] entries
    and the transition matrix has [K] rows, each a probability vector
    over the [K] states. *)
Definition has_states (D : nat) (K : nat) (o : obj D) : bool :=
  match _As_ o, _bs_ o, _Qs_ o, _transmat_ o with
  | Some As, Some bs, Some Qs, Some tm =>
      [&& size As == K, size bs == K, size Qs == K, size tm == K
        & all (fun row => (size row == K) && distribution row) tm]
  | _, _, _, _ => false
  end.

(** The draws return, and a categorical draw from a probability vector
    is one of its indices. *)
Definition draws_return (D : nat) (G stats : Type) (E : env D G stats)
    : Prop :=
  (forall p g, distribution p ->
     exists s g', categorical E (Some p) g = (Ok s, g') /\ (s < size p)%N) /\
  (forall m c g, exists y g', multivariate_normal E m c g = (Ok y, g')).

(** The configuration of one state that pools a single sequence for the
    hot start. *)
Definition pool_one_cfg : config := Config 1 1 1 "tmcqab" 1 0.

(** ** The float32 stores of the hot start

    The property setters cast to [np.float32], so that [As_] and [bs_]
    are float32 arrays and a store into them rounds. Here the stores of
    the hot start into these two arrays are modelled with their rounding,
    over binary rationals that evaluate; the arithmetic between two
    stores is exact (that of float64 is not modelled). *)











(** * Properties *)

(** ** Facts about arrays and loops *)

Section ArrayFacts.
Variable T : Type.
Implicit Types (a : seq T) (x : T) (i j : nat).

Lemma getitem_nth x0 a i : (i < size a)%N -> getitem a i = Ok (nth x0 a i).
Proof. by elim: a i => [|y a IH] [|i] //= /IH. Qed.

Lemma getitem_out a i : (size a <= i)%N -> getitem a i = Raise IndexError.
Proof. by elim: a i => [|y a IH] [|i] //= /IH. Qed.

Lemma size_upd a i x : size (upd a i x) = size a.
Proof. by elim: a i => [|y a IH] [|i] //=; rewrite IH. Qed.

Lemma nth_upd x0 a i x j :
  nth x0 (upd a i x) j = if (j == i) && (i < size a)%N then x else nth x0 a j.
Proof.
by elim: a i j => [|y a IH] [|i] [|j] //=; rewrite andbF.
Qed.

Lemma upd_cat a1 a2 x y : upd (a1 ++ y :: a2) (size a1) x = a1 ++ x :: a2.
Proof. by elim: a1 => [|z a1 IH] //=; rewrite IH. Qed.

Lemma mkseq_const x n : mkseq (fun=> x) n = nseq n x.
Proof.
apply: (@eq_from_nth _ x); first by rewrite size_mkseq size_nseq.
by move=> i; rewrite size_mkseq => lt_in; rewrite nth_mkseq // nth_nseq lt_in.
Qed.

End ArrayFacts.

Section LoopFacts.
Variable S : Type.
Implicit Types (body : nat -> M S unit) (st : nat -> S).

Lemma for_steps st body j n :
  (forall i, (j <= i < j + n)%N -> body i (st i) = (Ok tt, st i.+1)) ->
  for_ (iota j n) body (st j) = (Ok tt, st (j + n)%N).
Proof.
elim: n j => [|n IH] j step /=; first by rewrite addn0.
rewrite /bind step ?leqnn ?addnS ?ltnS ?leq_addr //.
rewrite -addSn; apply: IH => i /andP[lt_ji lt_i].
by rewrite step // (ltnW lt_ji) addnS -addSn.
Qed.

Lemma for_stuck st body j n m e s' :
  (j <= m < j + n)%N ->
  (forall i, (j <= i < m)%N -> body i (st i) = (Ok tt, st i.+1)) ->
  body m (st m) = (Raise e, s') ->
  for_ (iota j n) body (st j) = (Raise e, s').
Proof.
elim: n j => [|n IH] j /=.
  by rewrite addn0 => /andP[le_jm] /(leq_ltn_trans le_jm); rewrite ltnn.
rewrite leq_eqVlt => /andP[/orP[/eqP <-|lt_jm] lt_m] step stuck.
  by rewrite /bind stuck.
rewrite /bind step ?leqnn //; apply: IH => //.
  by rewrite lt_jm addSn -addnS.
by move=> i /andP[lt_ji lt_im]; rewrite step // (ltnW lt_ji).
Qed.

Lemma bind_eq (A B : Type) (m1 m2 : M S A) (f1 f2 : A -> M S B) s
    (P : A -> S -> Prop) :
  m1 s = m2 s ->
  (forall a s', m2 s = (Ok a, s') -> P a s') ->
  (forall a s', P a s' -> f1 a s' = f2 a s') ->
  bind m1 f1 s = bind m2 f2 s.
Proof.
rewrite /bind => ->; case: (m2 s) => [[a|e] s'] // post same.
by apply: same; apply: post.
Qed.

End LoopFacts.

(** ** The hot start *)

Section HotStart.

Variables (D : nat) (G stats : Type) (E : env D G stats).

Local Arguments mkseq : simpl never.

Lemma size_fill (T : Type) (f : nat -> T) z k i :
  (i <= k)%N -> size (mkseq f i ++ nseq (k - i) z) = k.
Proof. by move=> le_ik; rewrite size_cat size_mkseq size_nseq subnKC. Qed.

Lemma upd_fill (T : Type) (f : nat -> T) z k i :
  (i < k)%N ->
  upd (mkseq f i ++ nseq (k - i) z) i (f i) =
  mkseq f i.+1 ++ nseq (k - i.+1) z.
Proof.
move=> lt_ik; rewrite mkseqS cat_rcons -(subnSK lt_ik).
by have := upd_cat (mkseq f i) (nseq (k - i.+1) z) (f i) z; rewrite size_mkseq.
Qed.

Lemma init_A_loop k sq m c b q tm p v f (g : G) t :
  for_ (iota 0 k) (init_A (G:=G))
       (World (@Obj D sq m c (Some (nseq k 0)) b q tm p v f) g t) =
  (Ok tt, World (Obj sq m c (Some (nseq k (A_init D))) b q tm p v f) g t).
Proof.
pose st i :=
  World (@Obj D sq m c (Some (mkseq (fun=> (A_init D)) i ++ nseq (k - i) 0))
              b q tm p v f) g t.
have := @for_steps _ st (init_A (G:=G)) 0 k.
rewrite /st /= subn0 subnn cats0 mkseq_const add0n; apply=> i /= lt_ik.
rewrite /init_A /bind /attr /= /setitem size_fill ?(ltnW lt_ik) // lt_ik /=.
by rewrite /on_self /modify /= (upd_fill (fun=> (A_init D))).
Qed.

Lemma init_b_loop k sq centers c q tm p v f (g : G) t :
  (k <= size centers)%N ->
  for_ (iota 0 k) (init_b (G:=G))
       (World (@Obj D sq (Some centers) c (Some (nseq k (A_init D)))
                    (Some (nseq k 0)) q tm p v f) g t) =
  (Ok tt,
   World (Obj sq (Some centers) c (Some (nseq k (A_init D)))
              (Some (mkseq (fun i => np_dot (np_eye D - (A_init D))
                                            (nth 0 centers i)) k))
              q tm p v f) g t).
Proof.
move=> le_k.
pose h i := np_dot (np_eye D - (A_init D)) (nth 0 centers i).
pose st i :=
  World (@Obj D sq (Some centers) c (Some (nseq k (A_init D)))
              (Some (mkseq h i ++ nseq (k - i) 0)) q tm p v f) g t.
have := @for_steps _ st (init_b (G:=G)) 0 k.
rewrite /st /= subn0 subnn cats0 add0n; apply=> i /= lt_ik.
rewrite /init_b /bind /attr /=.
rewrite (getitem_nth 0) ?size_nseq // nth_nseq lt_ik.
rewrite (getitem_nth 0) ?(leq_trans lt_ik) //.
by rewrite /setitem size_fill ?(ltnW lt_ik) // lt_ik /= /on_self /modify /=
           (upd_fill h).
Qed.

Lemma init_Q_loop k sq m C a b tm p v f (g : G) t :
  for_ (iota 0 k) (init_Q (G:=G))
       (World (@Obj D sq m (Some (nseq k C)) a b (Some (nseq k 0)) tm p v f)
              g t) =
  (Ok tt,
   World (Obj sq m (Some (nseq k C)) a b (Some (nseq k (eps *: C))) tm p v f)
         g t).
Proof.
pose st i :=
  World (@Obj D sq m (Some (nseq k C)) a b
              (Some (mkseq (fun=> eps *: C) i ++ nseq (k - i) 0)) tm p v f)
        g t.
have := @for_steps _ st (init_Q (G:=G)) 0 k.
rewrite /st /= subn0 subnn cats0 mkseq_const add0n; apply=> i /= lt_ik.
rewrite /init_Q /bind /attr /= (getitem_nth 0) ?size_nseq // nth_nseq lt_ik.
by rewrite /setitem size_fill ?(ltnW lt_ik) // lt_ik /= /on_self /modify /=
           (upd_fill (fun=> eps *: C)).
Qed.

Lemma py_inv_pos k : (0 < k)%N -> py_inv k = Ok (1 / k%:R).
Proof. by case: k. Qed.

Lemma init_run cfg sequences w :
  hot_start_pool cfg sequences != [::] ->
  (0 < n_states cfg <= size (flatten (hot_start_pool cfg sequences)))%N ->
  (n_states cfg <= size (kmeans_centers E (rng w) (n_states cfg) (flatten (hot_start_pool cfg sequences))).1)%N ->
  _init E cfg sequences w = (Ok tt, hot_start E cfg sequences w).
Proof.
rewrite /_init /hot_start /hot_start_pool map_id.
case: (take _ _) => [|s0 ss] //= _ /andP[k_gt0 le_k].
set pool := s0 ++ flatten ss in le_k *.
rewrite /bind /= /KMeans_fit /= ltnNge le_k /=.
case: (kmeans_centers _ _ _ _) => centers g /= le_kc.
rewrite (py_inv_pos k_gt0) /distribute_covar_full !map_nseq /=.
by rewrite init_A_loop init_b_loop // init_Q_loop.
Qed.

Lemma init_b_stuck k sq centers c q tm p v f (g : G) t :
  (size centers < k)%N ->
  (for_ (iota 0 k) (init_b (G:=G))
        (World (@Obj D sq (Some centers) c (Some (nseq k (A_init D)))
                     (Some (nseq k 0)) q tm p v f) g t)).1 = Raise IndexError.
Proof.
move=> lt_k.
pose h i := np_dot (np_eye D - (A_init D)) (nth 0 centers i).
pose st i :=
  World (@Obj D sq (Some centers) c (Some (nseq k (A_init D)))
              (Some (mkseq h i ++ nseq (k - i) 0)) q tm p v f) g t.
have: for_ (iota 0 k) (init_b (G:=G)) (st 0%N) =
      (Raise IndexError, st (size centers)); last first.
  by rewrite /st /= subn0 => ->.
apply: (@for_stuck _ st _ 0 k (size centers)) => // [i /= lt_i|].
  have lt_ik := ltn_trans lt_i lt_k.
  rewrite /init_b /bind /attr /=.
  rewrite (getitem_nth 0) ?size_nseq // nth_nseq lt_ik (getitem_nth 0) //.
  by rewrite /setitem size_fill ?(ltnW lt_ik) // lt_ik /= /on_self /modify /=
             (upd_fill h).
rewrite /init_b /bind /attr /= (getitem_nth 0) ?size_nseq //.
by rewrite getitem_out.
Qed.

Lemma init_fewer cfg sequences w :
  (size (flatten (hot_start_pool cfg sequences)) < n_states cfg)%N ->
  _init E cfg sequences w =
  (Raise ValueError,
   World (with_sequences (Some sequences) (self w)) (rng w) (trace w)).
Proof.
rewrite /_init /hot_start_pool map_id /bind /=.
case: (take _ _) => [|s0 ss] //=.
by rewrite /KMeans_fit /= => ->.
Qed.

Lemma init_ok cfg sequences w w' :
  _init E cfg sequences w = (Ok tt, w') ->
  [/\ (0 < n_states cfg <= size (flatten (hot_start_pool cfg sequences)))%N,
      (n_states cfg <=
       size (kmeans_centers E (rng w) (n_states cfg)
               (flatten (hot_start_pool cfg sequences))).1)%N
    & w' = hot_start E cfg sequences w].
Proof.
move=> run.
have poolP : hot_start_pool cfg sequences != [::].
  move: run; rewrite /_init -/(hot_start_pool _ _) map_id /bind /=.
  by rewrite /hot_start_pool; case: (take _ _).
have le_k : (n_states cfg <= size (flatten (hot_start_pool cfg sequences)))%N.
  by rewrite leqNgt; apply/negP => /(init_fewer w); rewrite run.
have k_gt0 : (0 < n_states cfg)%N.
  rewrite lt0n; apply/eqP => k0; move: run.
  rewrite /_init map_id -/(hot_start_pool _ _) /bind /=.
  move: poolP; case: (hot_start_pool _ _) => [|s0 ss] //= _.
  rewrite /KMeans_fit /= k0 /=.
  by case: (kmeans_centers _ _ _ _).
have le_kc : (n_states cfg <=
              size (kmeans_centers E (rng w) (n_states cfg)
                      (flatten (hot_start_pool cfg sequences))).1)%N.
  rewrite leqNgt; apply/negP => lt_k; move: run.
  rewrite /_init map_id -/(hot_start_pool _ _) /bind /=.
  move: poolP le_k lt_k.
  case: (hot_start_pool _ _) => [|s0 ss] //= _ le_k.
  rewrite /KMeans_fit /= (ltnNge (size (s0 ++ flatten ss))) le_k /=.
  case: (kmeans_centers _ _ _ _) => c g /= lt_k.
  rewrite (py_inv_pos k_gt0) /distribute_covar_full !map_nseq /=.
  rewrite init_A_loop.
  have := @init_b_stuck (n_states cfg) (Some sequences) c
            (Some (nseq (n_states cfg)
                        (floor_zeros (np_cov E (s0 ++ flatten ss)))))
            (_Qs_ (self w))
            (Some (nseq (n_states cfg)
                        (nseq (n_states cfg) (1 / (n_states cfg)%:R))))
            (Some (nseq (n_states cfg) (1 / (n_states cfg)%:R)))
            (vars_ (self w)) (fit_logprob_ (self w)) g (trace w) lt_k.
  by case: (for_ _ _ _) => r s /= ->.
split=> //; first by rewrite k_gt0.
by move: run; rewrite init_run ?k_gt0 // => -[].
Qed.
End HotStart.

(** ** The initial dynamics matrix *)

Section InitMatrix.

Lemma eps_neq0 : eps != 0.
Proof. by []. Qed.

Lemma A_init_entry D (i j : 'I_D) :
  A_init D i j = if i == j then 4%:R / 5%:R else - (1 / 5%:R).
Proof.
rewrite /A_init /np_sub_scalar /np_eye !mxE.
by case: (i == j).
Qed.

Lemma eye_sub_A_init D : np_eye D - A_init D = const_mx eps.
Proof. by rewrite /A_init /np_sub_scalar opprB addrC subrK. Qed.

Lemma spread_neq0 n : spread n != 0.
Proof.
apply/eqP => /matrixP/(_ 0 ord0); rewrite !mxE !eqxx /=.
by [].
Qed.

Lemma spread_const n (x : rat) : spread n *m (const_mx x : mat n.+2) = 0.
Proof.
rewrite /spread mulmxBl -!rowE.
by apply/matrixP => i j; rewrite !mxE subrr.
Qed.

Lemma A_init_fixes_spread n : spread n *m A_init n.+2 = spread n.
Proof.
by rewrite /A_init /np_sub_scalar /np_eye mulmxBr mulmx1 spread_const subr0.
Qed.

Lemma A_init_eigenvalue1 n : eigenvalue (A_init n.+2) 1.
Proof.
apply/eigenvalueP; exists (spread n); last exact: spread_neq0.
by rewrite A_init_fixes_spread scale1r.
Qed.

End InitMatrix.

(** ** Uniform distributions *)

Lemma distribution_uniform k : (0 < k)%N -> distribution (nseq k (1 / k%:R)).
Proof.
move=> k_gt0; rewrite /distribution all_nseq divr_ge0 ?ler01 ?ler0n ?orbT //=.
rewrite big_nseq iter_addr_0 -mulr_natr divfK //.
by rewrite pnatr_eq0 -lt0n.
Qed.

Lemma stochastic_uniform D sq m c a b q v f k :
  (0 < k)%N ->
  stochastic (@Obj D sq m c a b q (Some (nseq k (nseq k (1 / k%:R))))
                   (Some (nseq k (1 / k%:R))) v f).
Proof.
by move=> k_gt0; rewrite /stochastic /= all_nseq !distribution_uniform ?orbT.
Qed.

(** ** The metastable wells *)

Section Wells.

Variables (D : nat) (G stats : Type) (E : env D G stats).

Local Arguments mkseq : simpl never.

Lemma for_acc_steps (S L : Type) (st : nat -> L) (body : nat -> L -> M S L)
    (s : S) j n :
  (forall i, (j <= i < j + n)%N -> body i (st i) s = (Ok (st i.+1), s)) ->
  for_acc (iota j n) body (st j) s = (Ok (st (j + n)%N), s).
Proof.
elim: n j => [|n IH] j step /=; first by rewrite addn0.
rewrite /bind step ?leqnn ?addnS ?ltnS ?leq_addr //.
rewrite -addSn; apply: IH => i /andP[lt_ji lt_i].
by rewrite step // (ltnW lt_ji) addnS -addSn.
Qed.

Lemma wells_run cfg (w : world D G) As bs :
  _As_ (self w) = Some As -> _bs_ (self w) = Some bs ->
  (n_states cfg <= size As)%N -> (n_states cfg <= size bs)%N ->
  (forall k, (k < n_states cfg)%N -> 1%:M - nth 0 As k \in unitmx) ->
  compute_metastable_wells cfg w =
  (Ok (mkseq (fun k => well (nth 0 As k) (nth 0 bs k)) (n_states cfg)), w).
Proof.
move=> wA wb leA leb unitA; rewrite /compute_metastable_wells.
pose h k := well (nth 0 As k) (nth 0 bs k).
pose st i := mkseq h i ++ nseq (n_states cfg - i) 0.
have := @for_acc_steps _ _ st (@well_step D G) w 0 (n_states cfg).
rewrite /st /= subn0 subnn cats0 add0n; apply=> i /= lt_ik.
rewrite /well_step /bind /attr /= wA wb /=.
rewrite (getitem_nth 0) ?(leq_trans lt_ik) // /np_linalg_inv unitA //=.
rewrite (getitem_nth 0) ?(leq_trans lt_ik) // /lift.
by rewrite /setitem size_fill ?(ltnW lt_ik) // lt_ik (upd_fill h).
Qed.

Lemma well_fixed_point (A : mat D) (b : vec D) :
  1%:M - A \in unitmx -> A *m well A b + b = well A b.
Proof.
move=> unitA; rewrite /well.
have {2}<- : (1%:M - A) *m (invmx (1%:M - A) *m b) = b by rewrite mulKVmx.
by rewrite mulmxBl mul1mx addrC subrK.
Qed.

Lemma well_unique (A : mat D) (b x : vec D) :
  1%:M - A \in unitmx -> A *m x + b = x -> x = well A b.
Proof.
move=> unitA fix_x; rewrite /well.
have -> : b = (1%:M - A) *m x by rewrite mulmxBl mul1mx -{1}fix_x addrC addKr.
by rewrite mulKmx.
Qed.

End Wells.

(** ** The restart loop *)

Section Fit.

Variables (D : nat) (G stats : Type) (E : env D G stats).
Implicit Types (cls : klass D stats) (cfg : config) (l : locals D)
  (w : world D G).

Lemma em_iterationE cls cfg i l w :
  em_iteration E cls cfg i (l, w) =
  match do_estep E cfg (self w) i with
  | Raise e => (Raise e, (l, w))
  | Ok (lp, st) =>
      let l1 := after_estep cfg i lp l in
      let w1 := logged (EStep i lp) w in
      match do_mstep_attr cls with
      | None => (Raise AttributeError, (l1, w1))
      | Some m =>
          match m cfg st (params cfg) i (self w) with
          | (Ok _, o) => (Ok tt, (l1, logged (MStep i) (World o (rng w) (trace w1))))
          | (Raise e, o) => (Raise e, (l1, World o (rng w) (trace w1)))
          end
      end
  end.
Proof.
rewrite /em_iteration /bind /in_world /impl_do_estep /bind /attr /lift /=.
case: (do_estep _ _ _ _) => [[lp st]|e] //=.
rewrite /on_locals /modify /= /after_estep.
case: (n_hotstart cfg <= i)%N => /=;
  rewrite /getattr_do_mstep; case: (do_mstep_attr cls) => [m|] //=;
  by rewrite /call_mstep /=; case: (m _ _ _ _ _) => [[[]|e] o].
Qed.


Lemma em_loop_trace cls cfg j n l w r l' w' :
  for_ (iota j n) (em_iteration E cls cfg) (l, w) = (r, (l', w')) ->
  exists evs m,
    [/\ trace w' = trace w ++ evs,
        fit_logprob l' = fit_logprob l ++ tracked cfg evs,
        estep_iterations evs = iota j m,
        (m <= n)%N
      & r = Ok tt -> m = n].
Proof.
elim: n j l w => [|n IH] j l w /=.
  by case=> <- <- <-; exists [::], 0%N; rewrite !cats0.
rewrite /bind em_iterationE.
case: (do_estep _ _ _ _) => [[lp st]|e] /=; last first.
  by case=> <- <- <-; exists [::], 0%N; rewrite !cats0.
case: (do_mstep_attr cls) => [ms|]; last first.
  case=> <- <- <- /=; exists [:: EStep j lp], 1%N.
  by rewrite cats1 /tracked /=; case: (_ <= _)%N; rewrite ?cats1 ?cats0.
case: (ms _ _ _ _ _) => [[[]|e] o]; last first.
  case=> <- <- <- /=; exists [:: EStep j lp], 1%N.
  by rewrite cats1 /tracked /=; case: (_ <= _)%N; rewrite ?cats1 ?cats0.
move/IH => [evs [m [tr fl es le_m fin]]].
exists (EStep j lp :: MStep j :: evs), m.+1; split=> //.
- by rewrite tr /= -!cats1 -!catA.
- rewrite fl /tracked /=; case: (_ <= _)%N => //=.
  by rewrite -cats1 -catA.
- by rewrite /= es.
- by move/fin => ->.
Qed.


Lemma size_estep_logps evs : size (estep_logps evs) = size (estep_iterations evs).
Proof. by elim: evs => [|[i lp|i] evs IH] //=; rewrite IH. Qed.

Lemma tracked_drop cfg evs j m :
  estep_iterations evs = iota j m ->
  tracked cfg evs = drop (n_hotstart cfg - j) (estep_logps evs).
Proof.
elim: evs j m => [|[i lp|i] evs IH] j m //=; last exact: IH.
case: m => [|m] //= -[-> /IH ->].
case: leqP => [le_hj|lt_jh] /=; last by rewrite -(subnSK lt_jh).
have /eqP -> : (n_hotstart cfg - j == 0)%N by rewrite subn_eq0.
have /eqP -> : (n_hotstart cfg - j.+1 == 0)%N by rewrite subn_eq0 leqW.
by rewrite !drop0.
Qed.

Lemma restartE cls cfg sequences r l w :
  restart E cls cfg sequences r (l, w) =
  match _init E cfg sequences w with
  | (Raise e, w1) => (Raise e, (restart_entry l, w1))
  | (Ok _, w1) =>
      match for_ (iota 0 (n_em_iter cfg)) (em_iteration E cls cfg)
                 (restart_entry l, w1) with
      | (Raise e, s) => (Raise e, s)
      | (Ok _, s) =>
          match curr_logprob s.1 with
          | None => (Raise NameError, s)
          | Some c => (Ok tt, (record_best (self s.2) c s.1, s.2))
          end
      end
  end.
Proof.
rewrite /restart /bind /on_locals /modify /in_world /=.
case: (_init _ _ _ _) => [[[]|e] w1] //=.
case: (for_ _ _ _) => [[[]|e] [l2 w2]] //=.
rewrite /get /lift /=; case: (curr_logprob l2) => [c|] //=.
by rewrite /record_best; case: (logp_gt _ _).
Qed.


(** *** The hot start leaves the trace alone *)

Lemma keeps_bind (T U : Type) (m : M (world D G) T) (f : T -> M (world D G) U) :
  keeps_trace m -> (forall a, keeps_trace (f a)) -> keeps_trace (bind m f).
Proof.
move=> km kf w; rewrite /bind; case mw: (m w) => [[a|e] w1] /=.
  by rewrite kf -(km w) mw.
by rewrite -(km w) mw.
Qed.

Lemma keeps_for its (body : nat -> M (world D G) unit) :
  (forall i, keeps_trace (body i)) -> keeps_trace (for_ its body).
Proof. by move=> kb; elim: its => [|i its IH] //=; apply: keeps_bind. Qed.

Lemma keeps_lift (T : Type) (r : outcome T) :
  keeps_trace (lift r : M (world D G) T).
Proof. by []. Qed.

Lemma keeps_attr (T : Type) (slot : obj D -> T) : keeps_trace (attr (G:=G) slot).
Proof. by []. Qed.

Lemma keeps_on_self (f : obj D -> obj D) : keeps_trace (on_self (G:=G) f).
Proof. by []. Qed.

Lemma keeps_KMeans k X : keeps_trace (KMeans_fit E k X).
Proof.
by move=> w; rewrite /KMeans_fit; case: ifP => // _; case: (kmeans_centers _ _ _ _).
Qed.

Ltac keeps :=
  lazymatch goal with
  | |- keeps_trace (bind _ _) => apply: keeps_bind => [|?]; keeps
  | |- keeps_trace (for_ _ _) => apply: keeps_for => ?; keeps
  | |- keeps_trace (lift _) => exact: keeps_lift
  | |- keeps_trace (attr _) => exact: keeps_attr
  | |- keeps_trace (on_self _) => exact: keeps_on_self
  | |- keeps_trace (KMeans_fit _ _ _) => exact: keeps_KMeans
  end.

Lemma init_keeps_trace cfg sequences : keeps_trace (_init E cfg sequences).
Proof. by rewrite /_init /init_A /init_b /init_Q; keeps. Qed.

(** C5. Within a restart the tracked trajectory [fit_logprob] is made of
    the log-likelihoods that the E-steps returned, in iteration order,
    without those of the first [n_hotstart] iterations; the E-steps run
    are those of iterations 0, 1, ... and, when the restart completes,
    of all [n_em_iter] iterations. *)
Theorem restart_tracks_after_hotstart cls cfg sequences r l w res l' w' :
  restart E cls cfg sequences r (l, w) = (res, (l', w')) ->
  exists evs,
    [/\ trace w' = trace w ++ evs,
        estep_iterations evs = iota 0 (size (estep_logps evs)),
        (size (estep_logps evs) <= n_em_iter cfg)%N,
        res = Ok tt -> size (estep_logps evs) = n_em_iter cfg
      & fit_logprob l' = drop (n_hotstart cfg) (estep_logps evs)].
Proof.
rewrite restartE; have := init_keeps_trace cfg sequences w.
case: (_init _ _ _ _) => [[[]|e] w1] /= tr1; last first.
  by case=> <- <- <-; exists [::]; rewrite cats0 tr1.
case loop: (for_ _ _ _) => [res2 [l2 w2]].
have [evs [m [tr fl es le_m fin]]] := em_loop_trace loop.
have sz : size (estep_logps evs) = m by rewrite size_estep_logps es size_iota.
have fl2 : fit_logprob l2 = drop (n_hotstart cfg) (estep_logps evs).
  by rewrite fl (tracked_drop cfg es) subn0.
case: res2 loop fin => [[]|e] loop fin /=; last first.
  by case=> <- <- <-; exists evs; rewrite sz -tr1.
case: (curr_logprob l2) => [c|] /=; last first.
  by case=> <- <- <-; exists evs; rewrite sz -tr1.
case=> <- <- <-; exists evs; rewrite sz -tr1; split=> //.
by rewrite /record_best; case: (logp_gt _ _).
Qed.


(** *** The class as written *)

Local Notation MSLDS := (MetastableSwitchingLDS D stats).

Lemma em_loop_no_mstep cfg n l w :
  for_ (iota 0 n.+1) (em_iteration E MSLDS cfg) (l, w) =
  match do_estep E cfg (self w) 0 with
  | Raise e => (Raise e, (l, w))
  | Ok (lp, st) =>
      (Raise AttributeError, (after_estep cfg 0 lp l, logged (EStep 0 lp) w))
  end.
Proof.
by rewrite /= /bind em_iterationE /=; case: (do_estep _ _ _ _) => [[lp st]|e].
Qed.

Lemma restart_no_mstep cfg sequences r l w :
  curr_logprob l = None ->
  ~~ returns (restart E MSLDS cfg sequences r (l, w)).1.
Proof.
move=> unbound; rewrite restartE.
case: (_init _ _ _ _) => [[[]|e] w1] //.
case: (n_em_iter cfg) => [|n]; first by rewrite /= unbound.
by rewrite em_loop_no_mstep; case: (do_estep _ _ _ _) => [[lp st]|e].
Qed.

Lemma fit_raises cls cfg sequences w e s :
  (0 < n_init cfg)%N ->
  restart E cls cfg sequences 0 (fit_entry D, w) = (Raise e, s) ->
  fit E cls cfg sequences w = (Raise e, s.2).
Proof.
rewrite /fit /fit_restarts; case: (n_init cfg) => [|r] // _ /=.
by rewrite /bind => ->.
Qed.

(** C2, as amended. [fit] on an instance of the class never returns
    normally; when [n_init >= 1], [n_em_iter >= 1], the hot start returns
    and the first E-step returns, [fit] raises [AttributeError] in its
    first EM iteration: the parameters are those of the hot start and
    the trace has gained that one E-step and no M-step. *)
Theorem fit_never_returns cfg sequences w :
  ~~ returns (fit E MSLDS cfg sequences w).1 /\
  forall w1 lp st,
    (0 < n_init cfg)%N -> (0 < n_em_iter cfg)%N ->
    _init E cfg sequences w = (Ok tt, w1) ->
    do_estep E cfg (self w1) 0 = Ok (lp, st) ->
    fit E MSLDS cfg sequences w =
    (Raise AttributeError, logged (EStep 0 lp) w1).
Proof.
split=> [|w1 lp st r_gt0 n_gt0 init1 estep0].
  rewrite /fit /fit_restarts; case: (n_init cfg) => [|r] //=.
  rewrite /bind.
  have := @restart_no_mstep cfg sequences 0 (fit_entry D) w (erefl _).
  by case: (restart _ _ _ _ _ _) => [[[]|e] s].
apply: (@fit_raises _ _ _ _ _ (after_estep cfg 0 lp (restart_entry (fit_entry D)), _)) => //.
rewrite restartE init1; case: (n_em_iter cfg) n_gt0 => [|n] // _.
by rewrite em_loop_no_mstep estep0.
Qed.

(** C4, as amended. When the pooled hot-start dataset has fewer points
    than [n_states], [_init] raises the [ValueError] of [np.vstack] or of
    the clusterer before it assigns any parameter, and so does [fit]
    when [n_init >= 1], before any E-step. *)
Theorem init_rejects_small_pool cls cfg sequences w :
  (size (flatten (hot_start_pool cfg sequences)) < n_states cfg)%N ->
  _init E cfg sequences w = (Raise ValueError, only_sequences sequences w) /\
  ((0 < n_init cfg)%N ->
   fit E cls cfg sequences w = (Raise ValueError, only_sequences sequences w)).
Proof.
move=> /(init_fewer E w) init1; split=> // r_gt0.
apply: (@fit_raises _ _ _ _ _ (restart_entry (fit_entry D), _)) => //.
by rewrite restartE init1.
Qed.


(** *** What a completed [fit] leaves on the model *)

Lemma for_ok_inv (S : Type) (I : S -> Prop) (body : nat -> M S unit) its s s' :
  (forall i s1 s2, I s1 -> body i s1 = (Ok tt, s2) -> I s2) ->
  I s -> for_ its body s = (Ok tt, s') -> I s'.
Proof.
move=> step; elim: its s => [|i its IH] s /= Is; first by case=> <-.
rewrite /bind; case bs: (body i s) => [[[]|e] s1] //.
by apply: IH; apply: step bs.
Qed.

Lemma em_loop_stochastic cls cfg its l w l' w' :
  (forall m, do_mstep_attr cls = Some m -> mstep_keeps_stochastic m) ->
  stochastic (self w) ->
  for_ its (em_iteration E cls cfg) (l, w) = (Ok tt, (l', w')) ->
  stochastic (self w') /\ best_params l' = best_params l.
Proof.
move=> keep st_w.
pose I (s : locals D * world D G) :=
  stochastic (self s.2) /\ best_params s.1 = best_params l.
apply: (@for_ok_inv _ I _ its (l, w) (l', w')) => // i [l1 w1] [l2 w2] [st1 bp1].
rewrite em_iterationE; case: (do_estep _ _ _ _) => [[lp st]|e] //=.
case ms: (do_mstep_attr cls) => [m|] //.
case run: (m _ _ _ _ _) => [[[]|e] o] // [<- <-]; split=> //=.
exact: keep ms _ _ _ _ _ _ st1 run.
Qed.

Lemma restarts_stochastic cls cfg sequences w l' w' :
  (forall m, do_mstep_attr cls = Some m -> mstep_keeps_stochastic m) ->
  fit_restarts E cls cfg sequences (fit_entry D, w) = (Ok tt, (l', w')) ->
  forall p, best_params l' = Some p -> snapshot_stochastic p.
Proof.
move=> keep.
pose I (s : locals D * world D G) :=
  forall p, best_params s.1 = Some p -> snapshot_stochastic p.
apply: (@for_ok_inv _ I _ _ (fit_entry D, w) (l', w')) => // r [l1 w1] [l2 w2].
rewrite restartE => I1.
case init1: (_init _ _ _ _) => [[[]|e] w3] //.
have [/andP[k_gt0 _] _ w3E] := init_ok init1.
have st3 : stochastic (self w3).
  rewrite w3E /hot_start; case: (kmeans_centers _ _ _ _) => c g /=.
  exact: stochastic_uniform.
case loop: (for_ _ _ _) => [[[]|e] [l4 w4]] //.
have [st4 bp4] := em_loop_stochastic keep st3 loop.
rewrite /=; case: (curr_logprob l4) => [c|] // [<- _] p.
rewrite /record_best; case: (logp_gt _ _) => /=; last by rewrite bp4; apply: I1.
by case=> <-; move: st4; rewrite /stochastic /snapshot_stochastic.
Qed.

(** C8. After [_init] the transition matrix and the populations are the
    uniform distributions over the [n_states] states: every row sums to
    one with non-negative entries. After a [fit] that completes they are
    those recorded for the best restart, and stochastic again provided
    the M-step bound to [_do_mstep] keeps them so. *)
Theorem transmat_populations_stochastic cls cfg sequences w :
  (forall w', _init E cfg sequences w = (Ok tt, w') ->
     [/\ _transmat_ (self w') =
           Some (nseq (n_states cfg)
                      (nseq (n_states cfg) (1 / (n_states cfg)%:R))),
         _populations_ (self w') =
           Some (nseq (n_states cfg) (1 / (n_states cfg)%:R))
       & stochastic (self w')]) /\
  ((forall m, do_mstep_attr cls = Some m -> mstep_keeps_stochastic m) ->
   forall w', fit E cls cfg sequences w = (Ok tt, w') ->
     stochastic (self w')).
Proof.
split=> [w' /init_ok[/andP[k_gt0 _] _ ->]|keep w'].
  rewrite /hot_start; case: (kmeans_centers _ _ _ _) => c g /=.
  by split=> //; apply: stochastic_uniform.
rewrite /fit; case loop: (fit_restarts _ _ _ _ _) => [[[]|e] [l s]] //=.
case bp: (best_params l) => [p|] // [<-] /=.
by have := restarts_stochastic keep loop bp.
Qed.

End Fit.

(** ** The scorer and the sampler *)

Section Score.

Variables (D : nat) (G stats : Type) (E : env D G stats).

(** C6. [score] hands the sequences to the engine, runs one E-step and
    no M-step, and returns the log-likelihood that E-step computed under
    the current parameters; the seven model parameters and the random
    state are as before the call. *)
Theorem score_one_estep cfg sequences (w : world D G) :
  let est :=
    do_estep E cfg (with_sequences (Some sequences) (self w)) (n_em_iter cfg) in
  let: (r, w') := score E cfg sequences w in
  [/\ model_params (self w') = model_params (self w),
      rng w' = rng w,
      _sequences (self w') = Some sequences
    & match r with
      | Ok lp => (exists st, est = Ok (lp, st)) /\
                 trace w' = rcons (trace w) (EStep (n_em_iter cfg) lp)
      | Raise e => est = Raise e /\ trace w' = trace w
      end].
Proof.
rewrite /score /impl_do_estep /bind /attr /lift /= map_id.
case: (do_estep _ _ _ _) => [[lp st]|e] /=; split=> //.
by split=> //; exists st.
Qed.

End Score.

Section Sample.

Variables (D : nat) (G stats : Type) (E : env D G stats).
Implicit Types (w : world D G) (obs : seq (vec D)) (hs : seq nat).

Lemma sample_step_stores
    (store : forall T : Type, seq T -> nat -> T -> outcome (seq T))
    t obs hs w obs' hs' w' :
  sample_step E store t (obs, hs) w = (Ok (obs', hs'), w') ->
  exists y s', store _ obs t.+1 y = Ok obs' /\ store _ hs t.+1 s' = Ok hs'.
Proof.
rewrite /sample_step /bind /lift /attr /draw /=.
case: (getitem hs t) => [s|] //=.
case: (_As_ _) => [As|] //=; case: (getitem As s) => [A|] //=.
case: (_bs_ _) => [bs|] //=; case: (getitem bs s) => [b|] //=.
case: (_Qs_ _) => [Qs|] //=; case: (getitem Qs s) => [Q|] //=.
case: (getitem obs t) => [x|] //=.
case: (multivariate_normal _ _ _ _) => [[y|] g] //=.
case so: (store _ obs t.+1 y) => [obs1|] //=.
case: (_transmat_ _) => [tm|] //=; case: (getitem tm s) => [row|] //=.
case: (categorical _ _ _) => [[s'|] g'] //=.
case sh: (store _ hs t.+1 s') => [hs1|] //= [<- <- _].
by exists y, s'.
Qed.


Local Arguments sample_step : simpl never.

Lemma sample_step_checked t obs hs w :
  (t.+1 < size obs)%N -> (t.+1 < size hs)%N ->
  sample_step E setitem t (obs, hs) w =
  sample_step E (fun T (a : seq T) i x => Ok (upd a i x)) t (obs, hs) w.
Proof.
move=> lt_obs lt_hs; rewrite /sample_step /bind /lift /attr /draw /=.
case: (getitem hs t) => [s|] //=.
case: (_As_ _) => [As|] //=; case: (getitem As s) => [A|] //=.
case: (_bs_ _) => [bs|] //=; case: (getitem bs s) => [b|] //=.
case: (_Qs_ _) => [Qs|] //=; case: (getitem Qs s) => [Q|] //=.
case: (getitem obs t) => [x|] //=.
case: (multivariate_normal _ _ _ _) => [[y|] g] //=.
rewrite {1}/setitem lt_obs /=.
case: (_transmat_ _) => [tm|] //=; case: (getitem tm s) => [row|] //=.
case: (categorical _ _ _) => [[s'|] g'] //=.
by rewrite /setitem lt_hs.
Qed.

Lemma sample_loop_checked n j m obs hs w :
  size obs = n -> size hs = n -> (j + m < n)%N ->
  for_acc (iota j m) (sample_step E setitem) (obs, hs) w =
  for_acc (iota j m)
          (sample_step E (fun T (a : seq T) i x => Ok (upd a i x)))
          (obs, hs) w.
Proof.
elim: m j obs hs w => [|m IH] j obs hs w sz_obs sz_hs lt_n; first by [].
have lt_j : (j.+1 < n)%N by rewrite (leq_ltn_trans _ lt_n) // addnS ltnS leq_addr.
have lt_obs : (j.+1 < size obs)%N by rewrite sz_obs.
have lt_hs : (j.+1 < size hs)%N by rewrite sz_hs.
rewrite [iota _ _]/= [LHS]/= [RHS]/= /bind (sample_step_checked w lt_obs lt_hs).
case step: (sample_step _ _ _ _ _) => [[[obs1 hs1]|e] w1]; last by [].
have [y [s' [[<-] [<-]]]] := sample_step_stores step.
by apply: IH; rewrite ?size_upd // addSn -addnS.
Qed.

Lemma sample_loop_keeps j m obs hs w obs' hs' w' :
  for_acc (iota j m) (sample_step E setitem) (obs, hs) w =
    (Ok (obs', hs'), w') ->
  [/\ size obs' = size obs, size hs' = size hs,
      nth 0 obs' 0 = nth 0 obs 0 & nth 0%N hs' 0 = nth 0%N hs 0].
Proof.
elim: m j obs hs w => [|m IH] j obs hs w /=; first by case=> <- <- _.
rewrite /bind.
case step: (sample_step _ _ _ _ _) => [[[obs1 hs1]|e] w1] //.
have [y [s' []]] := sample_step_stores step.
rewrite /setitem; case: ifP => // _ [<-]; case: ifP => // _ [<-].
by move/IH => [-> -> -> ->]; rewrite !size_upd !nth_upd.
Qed.

(** C10. [sample] needs [n_samples >= 1]. With [n_samples = 0] the store
    into index 0 is out of bounds: the call never returns and, when
    [init_state] is supplied, raises [IndexError] at once. With
    [n_samples >= 1] no store is out of bounds: the method behaves as the
    one whose stores are unchecked. When [init_state] and [init_obs] are
    supplied, a call that returns gives [n_samples] observations and
    states, [hidden_state[0] = init_state] and [obs[0] = init_obs]. *)
Theorem sample_stores_in_bounds n init_state init_obs w :
  [/\ n = 0%N ->
        ~~ returns (sample E n init_state init_obs w).1 /\
        (forall s, init_state = Some s ->
           sample E n init_state init_obs w = (Raise IndexError, w)),
      (0 < n)%N ->
        sample E n init_state init_obs w =
        sample_unchecked E n init_state init_obs w
    & forall s x obs hs w',
        sample E n (Some s) (Some x) w = (Ok (obs, hs), w') ->
        [/\ (0 < n)%N, size obs = n, size hs = n,
            nth 0%N hs 0 = s & nth 0 obs 0 = x]].
Proof.
split=> [->|n_gt0|s x obs hs w'].
- split=> [|s ->]; last by [].
  rewrite /sample /sample_with /bind /lift /attr /draw /=.
  case: init_state => [s|] //=.
  by case: (categorical _ _ _) => [[s|] g].
- rewrite /sample /sample_unchecked /sample_with.
  apply: (@bind_eq _ _ _ _ _ _ _ _ (fun hs _ => size hs = n)).
  + case: init_state => [s|]; first by rewrite /setitem size_nseq n_gt0.
    rewrite /bind /attr /draw /lift /=.
    case: (categorical _ _ _) => [[s|e] g] //.
    by rewrite /setitem size_nseq n_gt0.
  + move=> hs w1; case: init_state => [s|].
      by rewrite /lift => -[<- _]; rewrite size_upd size_nseq.
    rewrite /bind /attr /draw /lift /=.
    case: (categorical _ _ _) => [[s|e] g] // [<- _].
    by rewrite size_upd size_nseq.
  move=> hs w1 sz_hs.
  apply: (@bind_eq _ _ _ _ _ _ _ _ (fun obs _ => size obs = n)).
  + case: init_obs => [x|]; first by rewrite /setitem size_nseq n_gt0.
    rewrite /bind /attr /draw /lift /=.
    case: (getitem hs 0) => [s0|e] //.
    case: (_means_ _) => [means|] //=; case: (getitem means s0) => [mean|e] //.
    case: (_covars_ _) => [covars|] //=; case: (getitem covars s0) => [c|e] //.
    case: (multivariate_normal _ _ _ _) => [[y|e] g] //.
    by rewrite /setitem size_nseq n_gt0.
  + move=> obs w2; case: init_obs => [x|].
      by rewrite /lift => -[<- _]; rewrite size_upd size_nseq.
    rewrite /bind /attr /draw /lift /=.
    case: (getitem hs 0) => [s0|e] //.
    case: (_means_ _) => [means|] //=; case: (getitem means s0) => [mean|e] //.
    case: (_covars_ _) => [covars|] //=; case: (getitem covars s0) => [c|e] //.
    case: (multivariate_normal _ _ _ _) => [[y|e] g] // [<- _].
    by rewrite size_upd size_nseq.
  move=> obs w2 sz_obs; apply: (@sample_loop_checked n) => //.
  by rewrite add0n subn1 prednK.
- rewrite /sample /sample_with /bind /lift /=.
  rewrite /setitem !size_nseq; case: n => [|n] //=.
  move/sample_loop_keeps => /= [-> -> -> ->].
  by rewrite !size_nseq.
Qed.

End Sample.

(** ** After the hot start *)

Section AfterInit.

Variables (D : nat) (G stats : Type) (E : env D G stats).

Lemma take_mkseq (T : Type) (x0 : T) (s : seq T) k :
  (k <= size s)%N -> mkseq (nth x0 s) k = take k s.
Proof.
move=> le_k; apply: (@eq_from_nth _ x0).
  by rewrite size_mkseq size_takel.
by move=> i; rewrite size_mkseq => lt_ik; rewrite nth_mkseq // nth_take.
Qed.




(** C7. On a model with [n_states] dynamics matrices and offsets whose
    [I - A[k]] are all invertible, [compute_metastable_wells] returns,
    for each state [k], the vector [(I - A[k])^-1 b[k]], which is the
    fixed point of [x -> A[k] x + b[k]]. *)
Theorem wells_closed_form cfg (w : world D G) As bs :
  _As_ (self w) = Some As -> _bs_ (self w) = Some bs ->
  (n_states cfg <= size As)%N -> (n_states cfg <= size bs)%N ->
  (forall k, (k < n_states cfg)%N -> 1%:M - nth 0 As k \in unitmx) ->
  exists wells,
    [/\ compute_metastable_wells cfg w = (Ok wells, w),
        size wells = n_states cfg
      & forall k, (k < n_states cfg)%N ->
          nth 0 wells k = invmx (1%:M - nth 0 As k) *m nth 0 bs k /\
          nth 0 As k *m nth 0 wells k + nth 0 bs k = nth 0 wells k].
Proof.
move=> wA wb leA leb unitA.
exists (mkseq (fun k => well (nth 0 As k) (nth 0 bs k)) (n_states cfg)).
split=> [||k lt_k]; first exact: wells_run.
  by rewrite size_mkseq.
by rewrite nth_mkseq //; split=> //; apply: well_fixed_point; apply: unitA.
Qed.

End AfterInit.

(** ** The methods in the concrete environment *)

Lemma demo_init d k r n h sequences g o t :
  hot_start_pool (demo_cfg k r n h) sequences != [::] ->
  (0 < k <= size (flatten (hot_start_pool (demo_cfg k r n h) sequences)))%N ->
  _init (demo_env d) (demo_cfg k r n h) sequences (World o g t) =
  (Ok tt, hot_start (demo_env d) (demo_cfg k r n h) sequences (World o g t)).
Proof.
by move=> poolP le_k; apply: init_run => //=; rewrite size_nseq.
Qed.



Lemma demo_iteration d cfg i l (w : world d.+1 nat) m ms :
  _means_ (self w) = Some (m :: ms) ->
  em_iteration (demo_env d) (demo_class d) cfg i (l, w) =
  (Ok tt,
   (after_estep cfg i (Fin (- m ord0 ord0)) l,
    World (with_covars (Some [seq outer x | x <- m :: ms]) (self w)) (rng w)
          (rcons (rcons (trace w) (EStep i (Fin (- m ord0 ord0)))) (MStep i)))).
Proof.
move=> means_w; rewrite em_iterationE /= /demo_estep means_w /=.
by rewrite /demo_mstep ?means_w.
Qed.

Lemma demo_restart d k r h sequences i l o g t :
  hot_start_pool (demo_cfg k.+1 r 1 h) sequences != [::] ->
  (k < size (flatten (hot_start_pool (demo_cfg k.+1 r 1 h) sequences)))%N ->
  exists o',
  [/\ restart (demo_env d) (demo_class d) (demo_cfg k.+1 r 1 h) sequences i
              (l, World o g t) =
      (Ok tt,
       (record_best o' (Fin (- g%:R))
          (after_estep (demo_cfg k.+1 r 1 h) 0 (Fin (- g%:R)) (restart_entry l)),
        World o' g.+1 (rcons (rcons t (EStep 0 (Fin (- g%:R)))) (MStep 0)))),
      _means_ o' = Some (nseq k.+1 (const_mx g%:R))
    & _covars_ o' = Some (nseq k.+1 (outer (const_mx g%:R)))].
Proof.
move=> poolP lt_k; rewrite restartE demo_init //.
set w1 := hot_start _ _ _ _.
have means1 : _means_ (self w1) =
    Some (const_mx g%:R :: nseq k (const_mx g%:R)) by [].
have rng1 : rng w1 = g.+1 by [].
have trace1 : trace w1 = t by [].
rewrite [n_em_iter _]/= [iota _ _]/= [for_ _ _]/= /bind.
rewrite (demo_iteration _ _ _ means1) rng1 trace1 mxE.
exists (with_covars (Some [seq outer x | x <- nseq k.+1 (const_mx g%:R)]) (self w1)).
by split=> //=; rewrite map_nseq.
Qed.







Lemma two_wells_regular k :
  (k < 2)%N -> 1%:M - nth 0 [:: 0; (1 / 2%:R)%:M : mat 2] k \in unitmx.
Proof.
case: k => [|[|k]] //= _; first by rewrite subr0 unitmx1.
by rewrite -raddfB unitmxE det_scalar unitfE expf_neq0.
Qed.

Lemma wells_closed_form_witness :
  exists wells,
    [/\ compute_metastable_wells (demo_cfg 2 1 1 0) (World two_wells 0%N [::]) =
        (Ok wells, World two_wells 0%N [::]),
        size wells = 2
      & forall k, (k < 2)%N ->
          nth 0 wells k =
            invmx (1%:M - nth 0 [:: 0; (1 / 2%:R)%:M : mat 2] k) *m
            nth 0 [:: const_mx 1; const_mx 1] k /\
          nth 0 [:: 0; (1 / 2%:R)%:M : mat 2] k *m nth 0 wells k +
            nth 0 [:: const_mx 1; const_mx 1] k = nth 0 wells k].
Proof.
exact: (@wells_closed_form 2 nat (demo_cfg 2 1 1 0) (World two_wells 0%N [::])
          _ _ (erefl _) (erefl _) isT isT two_wells_regular).
Defined.


Lemma demo_estep_hot_start d k r n h sequences o g t :
  do_estep (demo_env d) (demo_cfg k.+1 r n h)
    (self (hot_start (demo_env d) (demo_cfg k.+1 r n h) sequences
                     (World o g t))) 0 =
  Ok (Fin (- g%:R), tt).
Proof. by rewrite /hot_start /= /demo_estep /= mxE. Qed.

(** C3 at a failing input: one state, two features, one sequence of one
    point. The matrix that [_init] stores has [0.8] on the diagonal and
    [-0.2], not 0, off it, and it has an eigenvalue that is not below 1:
    its spectral radius is not below 1. *)
Theorem init_A_off_diagonal :
  let cfg := demo_cfg 1 1 1 0 in
  exists w' A,
    [/\ _init (demo_env 1) cfg [:: one_point 1] (World (fresh 2) 1%N [::]) =
        (Ok tt, w'),
        _As_ (self w') = Some [:: A],
        A ord0 ord0 = 4%:R / 5%:R /\ A ord0 ord_max = - (1 / 5%:R)
      & exists2 lam, 1 <= lam & eigenvalue A lam].
Proof.
move=> cfg; rewrite /cfg demo_init //.
set w' := hot_start _ _ _ _.
exists w', (A_init 2); split=> //.
- by rewrite !A_init_entry.
- by exists 1; [exact: lexx | exact: A_init_eigenvalue1].
Qed.

(** C2 fails on an empty list of sequences: [np.vstack] raises
    [ValueError] in the hot start, before any EM iteration. *)
Lemma fit_without_sequences_raises_ValueError :
  let cfg := demo_cfg 1 1 1 0 in
  let r := (fit (demo_env 0) (MetastableSwitchingLDS 1 unit) cfg [::]
                (demo_world 0)).1 in
  [/\ (0 < n_em_iter cfg)%N, r = Raise ValueError & r <> Raise AttributeError].
Proof.
move=> cfg r; have -> : r = Raise ValueError; last by [].
by rewrite /r (@fit_raises _ _ _ _ _ _ _ _ ValueError
                 (restart_entry (fit_entry 1),
                  only_sequences [::] (demo_world 0))).
Qed.

Lemma fit_never_returns_witness :
  let cfg := demo_cfg 1 1 1 0 in
  let w1 := hot_start (demo_env 0) cfg [:: one_point 0] (demo_world 0) in
  [/\ (0 < n_init cfg)%N, (0 < n_em_iter cfg)%N,
      _init (demo_env 0) cfg [:: one_point 0] (demo_world 0) = (Ok tt, w1),
      do_estep (demo_env 0) cfg (self w1) 0 = Ok (Fin (- 0%:R), tt)
    & fit (demo_env 0) (MetastableSwitchingLDS 1 unit) cfg [:: one_point 0]
          (demo_world 0) =
      (Raise AttributeError, logged (EStep 0 (Fin (- 0%:R))) w1)].
Proof.
move=> cfg w1.
have init1 : _init (demo_env 0) cfg [:: one_point 0] (demo_world 0) = (Ok tt, w1).
  exact: demo_init.
have estep0 : do_estep (demo_env 0) cfg (self w1) 0 = Ok (Fin (- 0%:R), tt).
  exact: demo_estep_hot_start.
split=> //.
exact: (proj2 (fit_never_returns (demo_env 0) cfg [:: one_point 0] (demo_world 0))
              w1 (Fin (- 0%:R)) tt isT isT init1 estep0).
Defined.

(** C4 fails on one point and two states: the exception is the
    clusterer's [ValueError]. *)
Lemma init_small_pool_raises_ValueError :
  let cfg := demo_cfg 2 1 1 0 in
  let r := (_init (demo_env 0) cfg [:: one_point 0] (demo_world 0)).1 in
  [/\ (size (flatten (hot_start_pool cfg [:: one_point 0])) < n_states cfg)%N,
      r = Raise ValueError & r <> Raise InitializationError].
Proof.
by move=> cfg r; rewrite /r init_fewer.
Qed.

Lemma init_rejects_small_pool_witness :
  let cfg := demo_cfg 2 1 1 0 in
  let w := demo_world 0 in
  [/\ (size (flatten (hot_start_pool cfg [:: one_point 0])) < n_states cfg)%N,
      _init (demo_env 0) cfg [:: one_point 0] w =
        (Raise ValueError, only_sequences [:: one_point 0] w),
      (0 < n_init cfg)%N
    & fit (demo_env 0) (demo_class 0) cfg [:: one_point 0] w =
        (Raise ValueError, only_sequences [:: one_point 0] w)].
Proof.
move=> cfg w.
have [init1 fit1] :=
  init_rejects_small_pool (demo_env 0) (demo_class 0) w
    (isT : (size (flatten (hot_start_pool cfg [:: one_point 0])) < n_states cfg)%N).
by split=> //; apply: fit1.
Defined.

Lemma restart_tracks_after_hotstart_witness :
  let cfg := demo_cfg 1 1 1 0 in
  exists l' w',
    [/\ restart (demo_env 0) (demo_class 0) cfg [:: one_point 0] 0
                (fit_entry 1, demo_world 0) = (Ok tt, (l', w')),
        fit_logprob l' = [:: Fin (- 0%:R)]
      & exists evs,
          [/\ trace w' = trace (demo_world 0) ++ evs,
              estep_iterations evs = iota 0 (size (estep_logps evs)),
              (size (estep_logps evs) <= n_em_iter cfg)%N,
              Ok tt = Ok tt -> size (estep_logps evs) = n_em_iter cfg
            & fit_logprob l' = drop (n_hotstart cfg) (estep_logps evs)]].
Proof.
move=> cfg.
have [o' [run _ _]] :=
  @demo_restart 0 0 1 0 [:: one_point 0] 0 (fit_entry 1) (fresh 1) 0 [::] isT isT.
eexists; eexists; split; first exact: run.
  by [].
exact: (restart_tracks_after_hotstart run).
Defined.

Lemma demo_mstep_keeps d : mstep_keeps_stochastic (@demo_mstep d).
Proof. by move=> cfg st p i o o' st_o [<-]. Qed.

Lemma demo_class_keeps d m :
  do_mstep_attr (demo_class d) = Some m -> mstep_keeps_stochastic m.
Proof. by case=> <-; apply: demo_mstep_keeps. Qed.

Lemma demo_fit_once d k h sequences o g t :
  hot_start_pool (demo_cfg k.+1 1 1 h) sequences != [::] ->
  (k < size (flatten (hot_start_pool (demo_cfg k.+1 1 1 h) sequences)))%N ->
  exists w',
    fit (demo_env d) (demo_class d) (demo_cfg k.+1 1 1 h) sequences
        (World o g t) = (Ok tt, w').
Proof.
move=> poolP lt_k.
have [o' [run _ _]] := @demo_restart d k 1 h sequences 0 (fit_entry d.+1) o g t poolP lt_k.
rewrite /fit /fit_restarts [n_init _]/= [iota _ _]/= [for_ _ _]/= /bind run.
by rewrite /ret /record_best /=; eexists.
Qed.

Lemma transmat_populations_stochastic_witness :
  let cfg := demo_cfg 2 1 1 0 in
  let w := demo_world 0 in
  [/\ forall m, do_mstep_attr (demo_class 0) = Some m ->
                mstep_keeps_stochastic m,
      exists w', _init (demo_env 0) cfg [:: two_points 0] w = (Ok tt, w') /\
        [/\ _transmat_ (self w') =
              Some [:: [:: 1 / 2%:R; 1 / 2%:R]; [:: 1 / 2%:R; 1 / 2%:R]],
            _populations_ (self w') = Some [:: 1 / 2%:R; 1 / 2%:R]
          & stochastic (self w')]
    & exists w', fit (demo_env 0) (demo_class 0) cfg [:: two_points 0] w =
                 (Ok tt, w') /\ stochastic (self w')].
Proof.
move=> cfg w.
have [after_init after_fit] :=
  transmat_populations_stochastic (demo_env 0) (demo_class 0) cfg
    [:: two_points 0] w.
split; first exact: demo_class_keeps.
  exists (hot_start (demo_env 0) cfg [:: two_points 0] w).
  have init1 : _init (demo_env 0) cfg [:: two_points 0] w =
               (Ok tt, hot_start (demo_env 0) cfg [:: two_points 0] w).
    exact: demo_init.
  by split=> //; apply: after_init.
have [w' fit1] := @demo_fit_once 0 1 0 [:: two_points 0] (fresh 1) 0 [::] isT isT.
by exists w'; split=> //; apply: after_fit fit1; apply: demo_class_keeps.
Defined.



Lemma sample_stores_in_bounds_witness :
  let w := World (demo_model 0) 0%N [::] in
  let x : vec 1 := const_mx 1 in
  exists obs hs w',
    [/\ sample (demo_env 0) 2 (Some 0%N) (Some x) w = (Ok (obs, hs), w'),
        sample (demo_env 0) 2 (Some 0%N) (Some x) w =
        sample_unchecked (demo_env 0) 2 (Some 0%N) (Some x) w
      & [/\ (0 < 2)%N, size obs = 2, size hs = 2,
            nth 0%N hs 0 = 0%N & nth 0 obs 0 = x]].
Proof.
move=> w x.
have [_ checked init_values] :=
  sample_stores_in_bounds (demo_env 0) 2 (Some 0%N) (Some x) w.
have run : exists obs hs w',
    sample (demo_env 0) 2 (Some 0%N) (Some x) w = (Ok (obs, hs), w').
  by rewrite /sample /sample_with /= /bind /=; do 3!eexists.
have [obs [hs [w' run1]]] := run.
exists obs, hs, w'; split=> //.
exact: init_values run1.
Defined.


(** * Further properties of the methods *)

(** ** The arrays of the hot start *)

Section HotStartMore.

Variables (D : nat) (G stats : Type) (E : env D G stats).

Lemma hot_start_pool_take cfg (sequences : seq (seq (vec D))) :
  hot_start_pool cfg sequences = take (n_hotstart_sequences cfg) sequences.
Proof.
rewrite /hot_start_pool /minn; case: ltnP => // le_n.
by rewrite take_size take_oversize // ltnW.
Qed.

Lemma floor_zeros_neq0 (C : mat D) i j : floor_zeros C i j != 0.
Proof.
rewrite /floor_zeros mxE; case: ifPn => [_|nz]; last exact: nz.
by rewrite div1r invr_eq0 pnatr_eq0.
Qed.

(** X1. When [_init] returns, the seven parameters are all set:
    [covars_], [As_], [bs_], [Qs_] and [populations_] have [n_states]
    entries, [transmat_] is [n_states] by [n_states], and [means_] holds
    the centres that the clusterer returned, at least [n_states] of
    them. *)
Theorem init_array_shapes cfg sequences (w w' : world D G) :
  _init E cfg sequences w = (Ok tt, w') ->
  exists means covars As bs Qs tm pop,
    [/\ [/\ _means_ (self w') = Some means, _covars_ (self w') = Some covars,
            _As_ (self w') = Some As, _bs_ (self w') = Some bs
          & _Qs_ (self w') = Some Qs],
        _transmat_ (self w') = Some tm /\ _populations_ (self w') = Some pop,
        (n_states cfg <= size means)%N,
        [/\ size covars = n_states cfg, size As = n_states cfg,
            size bs = n_states cfg & size Qs = n_states cfg]
      & [/\ size tm = n_states cfg, all (fun row => size row == n_states cfg) tm
          & size pop = n_states cfg]].
Proof.
case/init_ok=> _ le_kc ->; rewrite /hot_start.
case: (kmeans_centers _ _ _ _) le_kc => c g /= le_kc.
exists c; do 6!eexists; split; [by split | by split | exact: le_kc | |].
  by rewrite !size_nseq size_mkseq.
by rewrite !size_nseq all_nseq size_nseq eqxx orbT.
Qed.

(** X2. When [_init] returns, every [covars_[k]] is the covariance of the
    pooled hot-start data with its zero entries replaced by [1e-5], so
    that no entry of [covars_] is zero, and [Qs_[k] = eps * covars_[k]]. *)
Theorem init_covars_floored cfg sequences (w w' : world D G) :
  _init E cfg sequences w = (Ok tt, w') ->
  exists covars Qs,
    [/\ _covars_ (self w') = Some covars, _Qs_ (self w') = Some Qs
      & forall k, (k < n_states cfg)%N ->
          [/\ nth 0 covars k =
                floor_zeros (np_cov E (flatten (hot_start_pool cfg sequences))),
              nth 0 Qs k = eps *: nth 0 covars k
            & forall i j, nth 0 covars k i j != 0]].
Proof.
case/init_ok=> _ _ ->; rewrite /hot_start.
case: (kmeans_centers _ _ _ _) => c g /=.
do 2!eexists; split; [reflexivity | reflexivity |] => k lt_k.
rewrite !nth_nseq lt_k; split; [reflexivity | reflexivity |] => i j.
exact: floor_zeros_neq0.
Qed.

(** X3. [_init] reads the first [n_hotstart_sequences] sequences and the
    random state, and nothing else: on another input with the same
    first [n_hotstart_sequences] sequences, from a model with the same
    random state and whatever parameters, it returns too, with the same
    seven parameters and the same random state. *)
Theorem init_depends_on_pool_and_rng cfg s1 s2 (w1 w2 w1' : world D G) :
  take (n_hotstart_sequences cfg) s1 = take (n_hotstart_sequences cfg) s2 ->
  rng w1 = rng w2 ->
  _init E cfg s1 w1 = (Ok tt, w1') ->
  exists w2',
    [/\ _init E cfg s2 w2 = (Ok tt, w2'),
        model_params (self w2') = model_params (self w1')
      & rng w2' = rng w1'].
Proof.
move=> same_pool same_rng /init_ok[/andP[k_gt0 le_k] le_kc ->].
have pool2 : hot_start_pool cfg s2 = hot_start_pool cfg s1.
  by rewrite !hot_start_pool_take.
exists (hot_start E cfg s2 w2); split.
- apply: init_run; rewrite pool2 -?same_rng ?k_gt0 //.
  by apply/eqP => pool0; move: le_k k_gt0; rewrite pool0 /= leqn0 => /eqP ->.
- by rewrite /hot_start pool2 same_rng; case: (kmeans_centers _ _ _ _).
- by rewrite /hot_start pool2 same_rng; case: (kmeans_centers _ _ _ _).
Qed.

End HotStartMore.

(** ** The derived quantities *)

Section Derived.

Variables (D : nat) (G : Type).

Local Arguments mkseq : simpl never.

Lemma for_acc_stuck (S L : Type) (st : nat -> L) (body : nat -> L -> M S L)
    (s : S) j n m e :
  (j <= m < j + n)%N ->
  (forall i, (j <= i < m)%N -> body i (st i) s = (Ok (st i.+1), s)) ->
  body m (st m) s = (Raise e, s) ->
  for_acc (iota j n) body (st j) s = (Raise e, s).
Proof.
elim: n j => [|n IH] j /=.
  by rewrite addn0 => /andP[le_jm] /(leq_ltn_trans le_jm); rewrite ltnn.
rewrite leq_eqVlt => /andP[/orP[/eqP <-|lt_jm] lt_m] step stuck.
  by rewrite /bind stuck.
rewrite /bind step ?leqnn //; apply: IH => //.
  by rewrite lt_jm addSn -addnS.
by move=> i /andP[lt_ji lt_im]; rewrite step // (ltnW lt_ji).
Qed.

Lemma covs_run iter_vars cfg N (w : world D G) As Qs V :
  _As_ (self w) = Some As -> _Qs_ (self w) = Some Qs ->
  (n_states cfg <= size As)%N -> (n_states cfg <= size Qs)%N ->
  (forall k, (k < n_states cfg)%N ->
     iter_vars (nth 0 As k) (nth 0 Qs k) N = Ok (V k)) ->
  compute_process_covariances iter_vars cfg N w =
  (Ok (mkseq V (n_states cfg)), w).
Proof.
move=> wA wQ leA leQ iterV; rewrite /compute_process_covariances.
pose st i := mkseq V i ++ nseq (n_states cfg - i) 0.
have := @for_acc_steps _ _ st (@cov_step D G iter_vars N) w 0 (n_states cfg).
rewrite /st /= subn0 subnn cats0 add0n; apply=> i /= lt_ik.
rewrite /cov_step /bind /attr /= wA wQ /=.
rewrite (getitem_nth 0) ?(leq_trans lt_ik) //=.
rewrite (getitem_nth 0) ?(leq_trans lt_ik) // /lift iterV //.
by rewrite /setitem size_fill ?(ltnW lt_ik) // lt_ik (upd_fill V).
Qed.

Lemma covs_stuck iter_vars cfg N (w : world D G) As Qs V j e :
  _As_ (self w) = Some As -> _Qs_ (self w) = Some Qs ->
  (j < n_states cfg)%N -> (j < size As)%N -> (j < size Qs)%N ->
  (forall k, (k < j)%N -> iter_vars (nth 0 As k) (nth 0 Qs k) N = Ok (V k)) ->
  iter_vars (nth 0 As j) (nth 0 Qs j) N = Raise e ->
  compute_process_covariances iter_vars cfg N w = (Raise e, w).
Proof.
move=> wA wQ lt_j ltA ltQ iterV stuck; rewrite /compute_process_covariances.
pose st i := mkseq V i ++ nseq (n_states cfg - i) 0.
have := @for_acc_stuck _ _ st (@cov_step D G iter_vars N) w 0 (n_states cfg) j e.
rewrite /st /= subn0 add0n; apply=> // [i /= lt_ij|].
  have lt_ik := ltn_trans lt_ij lt_j.
  rewrite /cov_step /bind /attr /= wA wQ /=.
  rewrite (getitem_nth 0) ?(ltn_trans lt_ij) //=.
  rewrite (getitem_nth 0) ?(ltn_trans lt_ij) // /lift iterV //.
  by rewrite /setitem size_fill ?(ltnW lt_ik) // lt_ik (upd_fill V).
rewrite /cov_step /bind /attr /= wA wQ /= (getitem_nth 0) //=.
by rewrite (getitem_nth 0) // /lift stuck.
Qed.

(** X5. On a model with [n_states] matrices in [As_] and in [Qs_],
    [compute_process_covariances] returns for each state [k] the matrix
    [iter_vars(As_[k], Qs_[k], N)] when these calls return, and raises
    the exception of the first of these calls that raises; the model is
    unchanged. *)
Theorem process_covariances_closed_form iter_vars cfg N (w : world D G) As Qs :
  _As_ (self w) = Some As -> _Qs_ (self w) = Some Qs ->
  (n_states cfg <= size As)%N -> (n_states cfg <= size Qs)%N ->
  (forall V, (forall k, (k < n_states cfg)%N ->
                iter_vars (nth 0 As k) (nth 0 Qs k) N = Ok (V k)) ->
     compute_process_covariances iter_vars cfg N w =
     (Ok (mkseq V (n_states cfg)), w)) /\
  (forall V j e, (j < n_states cfg)%N ->
     (forall k, (k < j)%N ->
        iter_vars (nth 0 As k) (nth 0 Qs k) N = Ok (V k)) ->
     iter_vars (nth 0 As j) (nth 0 Qs j) N = Raise e ->
     compute_process_covariances iter_vars cfg N w = (Raise e, w)).
Proof.
move=> wA wQ leA leQ; split=> [V iterV|V j e lt_j iterV stuck].
  exact: (covs_run wA wQ leA leQ iterV).
by apply: (@covs_stuck _ _ _ _ As Qs V j) => //; apply: leq_trans lt_j _.
Qed.

End Derived.

Section DerivedAfterInit.

Variables (G stats : Type).

Local Arguments mkseq : simpl never.

(** X7. Right after [_init] all states have the same dynamics:
    [compute_process_covariances] gives [n_states] copies of
    [iter_vars(np.eye(n_features) - eps, eps * cv, N)], where [cv] is the
    pooled covariance with its zeros replaced, or raises the exception of
    that call. *)
Theorem process_covariances_after_init D (E : env D G stats) iter_vars N cfg
    sequences w w' :
  _init E cfg sequences w = (Ok tt, w') ->
  compute_process_covariances iter_vars cfg N w' =
  (match iter_vars (A_init D)
           (eps *: floor_zeros
                     (np_cov E (flatten (hot_start_pool cfg sequences))))
           N with
   | Ok V => Ok (nseq (n_states cfg) V)
   | Raise e => Raise e
   end, w').
Proof.
case/init_ok=> /andP[k_gt0 _] _ ->; rewrite /hot_start.
case: (kmeans_centers _ _ _ _) => c g /=.
set Q := eps *: _; set w1 := World _ _ _.
have nthA k : (k < n_states cfg)%N -> nth 0 (nseq (n_states cfg) (A_init D)) k = A_init D.
  by move=> lt_k; rewrite nth_nseq lt_k.
have nthQ k : (k < n_states cfg)%N -> nth 0 (nseq (n_states cfg) Q) k = Q.
  by move=> lt_k; rewrite nth_nseq lt_k.
case iterV: (iter_vars _ _ _) => [V|e].
  rewrite (@covs_run _ _ _ _ _ w1 (nseq (n_states cfg) (A_init D))
                     (nseq (n_states cfg) Q) (fun=> V)) ?size_nseq //;
    first by move=> k lt_k; rewrite nthA // nthQ.
  congr (Ok _, _); apply: (@eq_from_nth _ 0).
    by rewrite size_mkseq size_nseq.
  move=> i; rewrite size_mkseq => lt_i.
  by rewrite nth_mkseq // !nth_nseq lt_i.
apply: (@covs_stuck _ _ _ _ _ w1 (nseq (n_states cfg) (A_init D))
                    (nseq (n_states cfg) Q) (fun=> 0) 0) => //.
- by rewrite size_nseq.
- by rewrite size_nseq.
- by rewrite nthA // nthQ.
Qed.

(** X8. On a model that was never fitted, whose parameters are [None],
    [compute_metastable_wells] and [compute_process_covariances] raise
    [TypeError] when [n_states >= 1], and [sample] raises [TypeError]
    when [n_samples >= 2] and both initial values are supplied; the
    model is unchanged. *)
Theorem unfitted_model_raises_TypeError D (E : env D G stats) iter_vars cfg N
    n s x g t :
  let w := World (fresh D) g t in
  [/\ (0 < n_states cfg)%N ->
        compute_metastable_wells cfg w = (Raise TypeError, w),
      (0 < n_states cfg)%N ->
        compute_process_covariances iter_vars cfg N w = (Raise TypeError, w)
    & (1 < n)%N -> sample E n (Some s) (Some x) w = (Raise TypeError, w)].
Proof.
move=> w; split.
- by rewrite /compute_metastable_wells; case: (n_states cfg).
- by rewrite /compute_process_covariances; case: (n_states cfg).
by case: n => [|[|n]].
Qed.

End DerivedAfterInit.

(** ** The order on log-likelihoods *)

Lemma logp_gt_irrefl c : ~~ logp_gt c c.
Proof. by case: c => [|x] //=; rewrite ltxx. Qed.

Lemma logp_gt_above x b c : logp_gt x b -> ~~ logp_gt c b -> logp_gt x c.
Proof.
case: x b c => [|x] [|b] [|c] //=; rewrite -leNgt => lt_bx le_cb.
exact: le_lt_trans le_cb lt_bx.
Qed.

Lemma logp_gt_asym x c : logp_gt x c -> ~~ logp_gt c x.
Proof.
by case: x c => [|x] [|c] //=; rewrite -leNgt => /ltW.
Qed.

Lemma logp_gt_finite c b : logp_gt c b -> exists x, c = Fin x.
Proof. by case: c => [|x] // _; exists x. Qed.

(** ** More on loops *)

Section LoopsMore.

Variable S : Type.
Implicit Types (body : nat -> M S unit).

Lemma for_cat its1 its2 body s :
  for_ (its1 ++ its2) body s =
  match for_ its1 body s with
  | (Ok _, s1) => for_ its2 body s1
  | (Raise e, s1) => (Raise e, s1)
  end.
Proof.
elim: its1 s => [|i its1 IH] s //=.
by rewrite /bind; case: (body i s) => [[[]|e] s1].
Qed.

Lemma for_last body j n s s' :
  for_ (iota j n.+1) body s = (Ok tt, s') ->
  exists2 s1, for_ (iota j n) body s = (Ok tt, s1)
            & body (j + n)%N s1 = (Ok tt, s').
Proof.
rewrite -addn1 iotaD for_cat.
case: (for_ _ _ _) => [[[]|e] s1] //= run; exists s1 => //.
by move: run; rewrite /bind; case: (body _ _) => [[[]|e] s2] // [<-].
Qed.

Lemma for_chain body j n s s' :
  for_ (iota j n) body s = (Ok tt, s') ->
  exists ss,
    [/\ size ss = n, last s ss = s'
      & forall d i, (i < n)%N ->
          body (j + i)%N (nth d (s :: ss) i) = (Ok tt, nth d (s :: ss) i.+1)].
Proof.
elim: n j s => [|n IH] j s /=; first by case=> <-; exists [::].
rewrite /bind; case step: (body j s) => [[[]|e] s1] //.
move/IH => [ss [sz la chain]]; exists (s1 :: ss); split=> //=.
  by rewrite sz.
by move=> d [|i] lt_i; [rewrite addn0 | rewrite addnS -addSn; apply: chain].
Qed.

End LoopsMore.

(** ** More on the restart loop *)

Section FitMore.

Variables (D : nat) (G stats : Type) (E : env D G stats).
Implicit Types (cls : klass D stats) (cfg : config) (l : locals D)
  (w : world D G).

Lemma em_loop_events cls cfg j n l w l' w' :
  for_ (iota j n) (em_iteration E cls cfg) (l, w) = (Ok tt, (l', w')) ->
  exists lps,
    [/\ size lps = n,
        trace w' = trace w ++ em_events j lps,
        fit_logprob l' = fit_logprob l ++ drop (n_hotstart cfg - j) lps,
        curr_logprob l' =
          (if n is 0%N then curr_logprob l else Some (last NegInf lps))
      & best_params l' = best_params l /\
        best_loglikelihood l' = best_loglikelihood l].
Proof.
elim: n j l w => [|n IH] j l w /=.
  by case=> <- <-; exists [::]; rewrite !cats0.
rewrite /bind em_iterationE.
case: (do_estep _ _ _ _) => [[lp st]|e] //=.
case: (do_mstep_attr cls) => [ms|] //.
case: (ms _ _ _ _ _) => [[[]|e] o] //.
move/IH => [lps [sz tr fl cu [bp bl]]].
exists (lp :: lps); split=> //.
- by rewrite /= sz.
- by rewrite tr /= -!cats1 -!catA.
- rewrite fl /=; case: leqP => [le_hj|lt_jh].
    have /eqP -> : (n_hotstart cfg - j == 0)%N by rewrite subn_eq0.
    have /eqP -> : (n_hotstart cfg - j.+1 == 0)%N by rewrite subn_eq0 leqW.
    by rewrite !drop0 cat_rcons.
  by rewrite -(subnSK lt_jh).
- by rewrite cu; case: (n) (lps) sz => [|n'] [|x lps'].
Qed.

Lemma restart_best cls cfg sequences r l w l' w' :
  restart E cls cfg sequences r (l, w) = (Ok tt, (l', w')) ->
  exists c,
    [/\ curr_logprob l' = Some c,
        best_loglikelihood l' =
          (if logp_gt c (best_loglikelihood l) then c
           else best_loglikelihood l)
      & best_params l' =
          (if logp_gt c (best_loglikelihood l)
           then Some (take_snapshot (self w') (fit_logprob l'))
           else best_params l)].
Proof.
rewrite restartE; case: (_init _ _ _ _) => [[[]|e] w1] //.
case loop: (for_ _ _ _) => [[[]|e] [l2 w2]] //=.
have [lps [_ _ _ _ [bp bl]]] := em_loop_events loop.
case cu: (curr_logprob l2) => [c|] // [<- <-]; exists c.
rewrite /record_best bl /=.
by case: (logp_gt _ _); rewrite /= ?cu ?bp ?bl.
Qed.

(** X9. The two empty loops of [fit], for any class. With [n_init = 0]
    no restart stores parameters: [fit] raises [KeyError] and the model
    is unchanged. With [n_init >= 1] and [n_em_iter = 0] the name
    [curr_logprob] is unbound after the first hot start: [fit] raises
    [NameError] and the model holds the hot start's parameters. *)
Theorem fit_degenerate_loops cls cfg sequences w :
  ((n_init cfg = 0)%N -> fit E cls cfg sequences w = (Raise KeyError, w)) /\
  (forall w1, (0 < n_init cfg)%N -> n_em_iter cfg = 0%N ->
     _init E cfg sequences w = (Ok tt, w1) ->
     fit E cls cfg sequences w = (Raise NameError, w1)).
Proof.
split=> [r0|w1 r_gt0 n0 init1]; first by rewrite /fit /fit_restarts r0.
apply: (@fit_raises _ _ _ _ _ _ _ _ _ (restart_entry (fit_entry D), w1)) => //.
by rewrite restartE init1 n0.
Qed.

(** X10. A restart that completes has called the engine and the M-step
    as E-step 0, M-step 0, E-step 1, M-step 1, ..., up to iteration
    [n_em_iter - 1] and no further; [fit_logprob] is the list of the
    E-steps' log-likelihoods without the first [n_hotstart], and
    [curr_logprob] is the last of them. *)
Theorem restart_alternates_steps cls cfg sequences r l w l' w' :
  restart E cls cfg sequences r (l, w) = (Ok tt, (l', w')) ->
  exists lps,
    [/\ size lps = n_em_iter cfg,
        trace w' = trace w ++ em_events 0 lps,
        fit_logprob l' = drop (n_hotstart cfg) lps
      & curr_logprob l' =
          (if n_em_iter cfg is 0%N then curr_logprob l
           else Some (last NegInf lps))].
Proof.
rewrite restartE; have := init_keeps_trace E cfg sequences w.
case: (_init _ _ _ _) => [[[]|e] w1] //= tr1.
case loop: (for_ _ _ _) => [[[]|e] [l2 w2]] //=.
have [lps [sz tr fl cu _]] := em_loop_events loop.
case: (curr_logprob l2) => [c|] // [<- <-]; exists lps.
rewrite /record_best; case: (logp_gt _ _) => /=;
  by rewrite tr tr1 fl cu subn0.
Qed.

(** X11. With [n_em_iter >= 1], the log-likelihood that a completed
    restart is judged by is that of its last E-step, computed on the
    parameters [o] before the last M-step, while the parameters stored
    with it, when it is the best so far, are those after that M-step. *)
Theorem restart_scores_before_last_mstep cls cfg sequences r l w l' w' :
  (0 < n_em_iter cfg)%N ->
  restart E cls cfg sequences r (l, w) = (Ok tt, (l', w')) ->
  exists m o lp st,
    [/\ do_mstep_attr cls = Some m,
        do_estep E cfg o (n_em_iter cfg).-1 = Ok (lp, st),
        m cfg st (params cfg) (n_em_iter cfg).-1 o = (Ok tt, self w'),
        curr_logprob l' = Some lp
      & best_params l' =
          (if logp_gt lp (best_loglikelihood l)
           then Some (take_snapshot (self w') (fit_logprob l'))
           else best_params l)].
Proof.
case n_eq: (n_em_iter cfg) => [|n] // _ run.
have [c [cu _ bp]] := restart_best run.
move: run; rewrite restartE; case: (_init _ _ _ _) => [[[]|e] w1] //.
rewrite n_eq.
case loop: (for_ _ _ _) => [[[]|e] [l2 w2]] //=.
have [[l1 w3] _] := for_last loop.
rewrite add0n em_iterationE.
case estep: (do_estep _ _ _ _) => [[lp st]|e] //=.
case cls_m: (do_mstep_attr cls) => [m|] //.
case mstep: (m _ _ _ _ _) => [[[]|e] o] // [l2E w2E].
have cu2 : curr_logprob l2 = Some lp by rewrite -l2E.
rewrite cu2 => -[l'E w'E].
have c_lp : c = lp.
  by move: cu; rewrite -l'E /record_best; case: (logp_gt _ _); rewrite /= ?cu2 => -[].
exists m, (self w3), lp, st; split=> //.
- by rewrite mstep -w'E -w2E.
- by rewrite cu c_lp.
- by rewrite bp c_lp.
Qed.

Lemma restarts_trajectory cls cfg sequences w l' w' :
  fit_restarts E cls cfg sequences (fit_entry D, w) = (Ok tt, (l', w')) ->
  forall p, best_params l' = Some p ->
    size (p_fit_logprob p) = (n_em_iter cfg - n_hotstart cfg)%N.
Proof.
pose I (s : locals D * world D G) :=
  forall p, best_params s.1 = Some p ->
    size (p_fit_logprob p) = (n_em_iter cfg - n_hotstart cfg)%N.
apply: (@for_ok_inv _ I _ _ (fit_entry D, w) (l', w')) => // r [l1 w1] [l2 w2].
rewrite restartE => I1.
case: (_init _ _ _ _) => [[[]|e] w3] //.
case loop: (for_ _ _ _) => [[[]|e] [l4 w4]] //.
have [lps [sz _ fl _ [bp4 _]]] := em_loop_events loop.
rewrite /=; case: (curr_logprob l4) => [c|] // [<- _] p.
rewrite /record_best; case: (logp_gt _ _) => /=; last by rewrite bp4; apply: I1.
by case=> <- /=; rewrite fl /= subn0 size_drop sz.
Qed.

(** X12. After a [fit] that completes, [fit_logprob_] has
    [n_em_iter - n_hotstart] entries (none when
    [n_hotstart >= n_em_iter]). *)
Theorem fit_logprob_length cls cfg sequences w w' :
  fit E cls cfg sequences w = (Ok tt, w') ->
  exists fl,
    fit_logprob_ (self w') = Some fl /\
    size fl = (n_em_iter cfg - n_hotstart cfg)%N.
Proof.
rewrite /fit; case loop: (fit_restarts _ _ _ _ _) => [[[]|e] [l s]] //=.
case bp: (best_params l) => [p|] // [<-] /=.
by exists (p_fit_logprob p); split=> //; apply: restarts_trajectory loop _ bp.
Qed.

(** X13. A [fit] that completes has run its [n_init] restarts one after
    the other, and the snapshot it restores is that of the first restart
    [r] of maximal final log-likelihood: this log-likelihood is finite,
    strictly above that of every earlier restart and not below that of
    any restart, so that ties keep the earlier restart. What
    [set_final_values] does not assign, the random state and the trace
    are those of the last restart. *)
Theorem fit_restores_first_best_restart cls cfg sequences w w' :
  fit E cls cfg sequences w = (Ok tt, w') ->
  exists ss r x,
    let s := nth (fit_entry D, w) ((fit_entry D, w) :: ss) in
    [/\ size ss = n_init cfg,
        forall i, (i < n_init cfg)%N ->
          restart E cls cfg sequences i (s i) = (Ok tt, s i.+1),
        (r < n_init cfg)%N /\ curr_logprob (s r.+1).1 = Some (Fin x),
        forall i, (i < n_init cfg)%N ->
          exists c, [/\ curr_logprob (s i.+1).1 = Some c,
                        ~~ logp_gt c (Fin x)
                      & (i < r)%N -> logp_gt (Fin x) c]
      & w' = World (set_final_values
                      (take_snapshot (self (s r.+1).2) (fit_logprob (s r.+1).1))
                      (self (s (n_init cfg)).2))
                   (rng (s (n_init cfg)).2) (trace (s (n_init cfg)).2)].
Proof.
rewrite /fit; case loop: (fit_restarts _ _ _ _ _) => [[[]|e] [lf wf]] //=.
have [ss [sz la chain]] := for_chain loop.
pose s0 : locals D * world D G := (fit_entry D, w).
pose s := nth s0 (s0 :: ss).
have step i : (i < n_init cfg)%N ->
    restart E cls cfg sequences i (s i) = (Ok tt, s i.+1).
  by move=> lt_i; have := chain s0 i lt_i; rewrite add0n.
pose score i := curr_logprob (s i.+1).1.
pose Inv k (l : locals D) :=
  (forall i, (i < k)%N ->
     exists2 c, score i = Some c & ~~ logp_gt c (best_loglikelihood l)) /\
  match best_params l with
  | None => True
  | Some p =>
      exists r x,
        [/\ (r < k)%N, score r = Some (Fin x), best_loglikelihood l = Fin x,
            p = take_snapshot (self (s r.+1).2) (fit_logprob (s r.+1).1)
          & forall i, (i < r)%N ->
              exists2 c, score i = Some c & logp_gt (Fin x) c]
  end.
have inv k : (k <= n_init cfg)%N -> Inv k (s k).1.
  elim: k => [|k IH] lt_k; first by split.
  have [below best] := IH (ltnW lt_k).
  have := step k lt_k.
  case sk: (s k) below best => [l1 w1]; case sk1: (s k.+1) => [l2 w2] /= below best.
  move/restart_best => [c [cu bl bp]].
  have score_k : score k = Some c by rewrite /score sk1.
  split.
    move=> i; rewrite ltnS leq_eqVlt => /orP[/eqP ->|lt_i].
      exists c => //; rewrite bl; case: ifP => [_|->] //.
      exact: logp_gt_irrefl.
    have [ci sci not_gt] := below i lt_i; exists ci => //.
    rewrite bl; case: ifP => // gt_c.
    exact: logp_gt_asym (logp_gt_above gt_c not_gt).
  rewrite bp; case: ifP => [gt_c|ngt_c].
    have [x cE] := logp_gt_finite gt_c.
    exists k, x; split=> //.
    - by rewrite score_k cE.
    - by rewrite bl gt_c.
    - by rewrite sk1.
    move=> i lt_i; have [ci sci not_gt] := below i lt_i; exists ci => //.
    by rewrite -cE; apply: logp_gt_above gt_c not_gt.
  case: (best_params l1) best => [p|] // [r [x [lt_r sr blx pE earlier]]].
  exists r, x; split=> //; first exact: ltnW.
  by rewrite bl ngt_c.
have sn : s (n_init cfg) = (lf, wf).
  by rewrite /s -sz -la (last_nth s0).
have [below] := inv _ (leqnn _); rewrite sn /=.
case: (best_params lf) => [p|] // [r [x [lt_r sr blx pE earlier]]] [<-].
exists ss, r, x; rewrite -/s0 -/s /= sn /=; split=> //.
- move=> i lt_i; have [c sci not_gt] := below i lt_i.
  exists c; split=> //; first by move: not_gt; rewrite sn blx.
  by move=> /earlier[c']; rewrite sci => -[<-].
- by rewrite pE.
Qed.

End FitMore.

(** ** More on the sampler *)

Section SampleMore.

Variables (D : nat) (G stats : Type) (E : env D G stats).
Implicit Types (w : world D G) (obs : seq (vec D)) (hs : seq nat).

Lemma all_upd (T : Type) (p : pred T) (a : seq T) i x :
  all p a -> p x -> all p (upd a i x).
Proof.
elim: a i => [|y a IH] [|i] //= /andP[py pa] px; first by rewrite px.
by rewrite py IH.
Qed.

Local Arguments sample_step : simpl never.

Lemma sample_first_step n s x w :
  sample E n.+2 (Some s) (Some x) w =
  bind (sample_step E setitem 0 (x :: nseq n.+1 0, s :: nseq n.+1 0%N))
       (for_acc (iota 1 n) (sample_step E setitem)) w.
Proof. by []. Qed.

(** X15. With [n_samples >= 2] and an [init_state] that is not an index
    of [As_], [sample] raises [IndexError] at its first time update,
    before any draw: the model and the random state are unchanged. *)
Theorem sample_state_out_of_range n s x w As :
  (1 < n)%N -> _As_ (self w) = Some As -> (size As <= s)%N ->
  sample E n (Some s) (Some x) w = (Raise IndexError, w).
Proof.
case: n => [|[|n]] // _ wA le_s; rewrite sample_first_step.
by rewrite /bind /sample_step /bind /lift /attr /= wA /= getitem_out.
Qed.

Lemma sample_step_total K t obs hs o g t0 :
  draws_return E -> has_states K o ->
  (t.+1 < size obs)%N -> (t.+1 < size hs)%N ->
  all (fun s => (s < K)%N) hs ->
  exists y s' g',
    (s' < K)%N /\
    sample_step E setitem t (obs, hs) (World o g t0) =
    (Ok (upd obs t.+1 y, upd hs t.+1 s'), World o g' t0).
Proof.
move=> [cat_ok mvn_ok]; rewrite /has_states.
case wA: (_As_ _) => [As|] //; case wb: (_bs_ _) => [bs|] //.
case wQ: (_Qs_ _) => [Qs|] //; case wt: (_transmat_ _) => [tm|] //.
case/and5P=> /eqP szA /eqP szb /eqP szQ /eqP szt rows lt_obs lt_hs in_range.
have lt_t : (t < size hs)%N by exact: ltnW.
have lt_s : (nth 0%N hs t < K)%N by exact: (all_nthP 0%N in_range).
set s := nth 0%N hs t in lt_s.
have [y [g1 mvnE]] :=
  mvn_ok (np_dot (nth 0 As s) (nth 0 obs t) + nth 0 bs s) (nth 0 Qs s) g.
have /andP[/eqP sz_row row_dist] :
    (size (nth [::] tm s) == K) && distribution (nth [::] tm s).
  by apply: (all_nthP [::] rows); rewrite szt.
have [s' [g2 [catE lt_s']]] := cat_ok (nth [::] tm s) g1 row_dist.
exists y, s', g2; split; first by rewrite -sz_row.
rewrite /sample_step /bind /lift /attr /draw /=.
rewrite (getitem_nth 0%N) // -/s wA /= (getitem_nth 0) ?szA //.
rewrite wb /= (getitem_nth 0) ?szb // wQ /= (getitem_nth 0) ?szQ //.
rewrite (getitem_nth 0) ?(ltnW lt_obs) // mvnE /= /setitem lt_obs /=.
by rewrite wt /= (getitem_nth [::]) ?szt // catE /= lt_hs.
Qed.

Lemma sample_loop_total K o t0 n j m obs hs g :
  draws_return E -> has_states K o ->
  size obs = n -> size hs = n -> (j + m < n)%N ->
  all (fun s => (s < K)%N) hs ->
  exists obs' hs' g',
    [/\ for_acc (iota j m) (sample_step E setitem) (obs, hs) (World o g t0) =
        (Ok (obs', hs'), World o g' t0),
        size obs' = n, size hs' = n
      & all (fun s => (s < K)%N) hs'].
Proof.
move=> dr wf; elim: m j obs hs g => [|m IH] j obs hs g sz_obs sz_hs lt_n inr.
  by exists obs, hs, g.
have lt_j : (j.+1 < n)%N.
  by rewrite (leq_ltn_trans _ lt_n) // addnS ltnS leq_addr.
have [||y [s' [g1 [lt_s' step]]]] :=
  @sample_step_total K j obs hs o g t0 dr wf _ _ inr; rewrite ?sz_obs ?sz_hs //.
have [||||obs' [hs' [g' [run szo szh inr']]]] :=
  IH j.+1 (upd obs j.+1 y) (upd hs j.+1 s') g1.
- by rewrite size_upd.
- by rewrite size_upd.
- by rewrite addSn -addnS.
- exact: all_upd.
exists obs', hs', g'; split=> //.
by rewrite [iota _ _]/= [for_acc _ _ _]/= /bind step.
Qed.

Lemma sample_total K n s x w :
  draws_return E -> has_states K (self w) -> (s < K)%N -> (0 < n)%N ->
  exists obs hs w',
    [/\ sample E n (Some s) (Some x) w = (Ok (obs, hs), w'),
        size obs = n /\ size hs = n,
        all (fun s' => (s' < K)%N) hs
      & self w' = self w /\ trace w' = trace w].
Proof.
case: w => o g t0 /= dr wf lt_s n_gt0.
have [||||obs' [hs' [g' [run szo szh inr]]]] :=
  @sample_loop_total K o t0 n 0 (n - 1) (upd (nseq n 0) 0 x)
     (upd (nseq n 0%N) 0 s) g dr wf.
- by rewrite size_upd size_nseq.
- by rewrite size_upd size_nseq.
- by rewrite add0n subn1 prednK.
- apply: all_upd => //; rewrite all_nseq; apply/orP; right.
  exact: leq_ltn_trans lt_s.
exists obs', hs', (World o g' t0); split=> //.
by rewrite /sample /sample_with /bind /lift /setitem !size_nseq n_gt0.
Qed.

(** X16. On a model of [K] states ([As_], [bs_], [Qs_] of [K] entries,
    [transmat_] of [K] rows, each a probability vector over the [K]
    states), when the draws return and a categorical draw from a
    probability vector is one of its indices, [sample] with
    [init_state < K] and [n_samples >= 1] returns: it gives [n_samples]
    observations and [n_samples] states, all of them below [K], and
    leaves the parameters and the trace as they were. *)
Theorem sample_returns_states_in_range K n s x w :
  draws_return E -> has_states K (self w) -> (s < K)%N -> (0 < n)%N ->
  exists obs hs w',
    [/\ sample E n (Some s) (Some x) w = (Ok (obs, hs), w'),
        size obs = n /\ size hs = n,
        all (fun s' => (s' < K)%N) hs
      & self w' = self w /\ trace w' = trace w].
Proof. exact: sample_total. Qed.

Lemma init_has_states cfg sequences w w' :
  _init E cfg sequences w = (Ok tt, w') -> has_states (n_states cfg) (self w').
Proof.
case/init_ok=> /andP[k_gt0 _] _ ->; rewrite /hot_start.
case: (kmeans_centers _ _ _ _) => c g /=.
rewrite /has_states /= !size_nseq size_mkseq !eqxx all_nseq size_nseq eqxx /=.
by rewrite distribution_uniform ?orbT.
Qed.

(** X17. A model can be sampled right after [_init]: when the draws
    return as in X16, [sample] with [init_state < n_states] and
    [n_samples >= 1] returns [n_samples] observations and states below
    [n_states]. *)
Theorem sample_after_init cfg sequences w w1 n s x :
  draws_return E ->
  _init E cfg sequences w = (Ok tt, w1) ->
  (s < n_states cfg)%N -> (0 < n)%N ->
  exists obs hs w2,
    [/\ sample E n (Some s) (Some x) w1 = (Ok (obs, hs), w2),
        size obs = n /\ size hs = n,
        all (fun s' => (s' < n_states cfg)%N) hs
      & self w2 = self w1 /\ trace w2 = trace w1].
Proof.
by move=> dr /init_has_states wf lt_s n_gt0; apply: sample_total.
Qed.

(** X14. With [n_samples = 1], [sample] does no time update: given both
    initial values it returns them and changes neither the model nor the
    random state, even on a model that was never fitted; and whatever the
    initial values, its result and the random state it leaves do not
    depend on [As_], [bs_], [Qs_] and [transmat_]. *)
Theorem sample_single_no_time_update init_state init_obs s x o g t As bs Qs tm :
  let o' := with_As As (with_bs bs (with_Qs Qs (with_transmat tm o))) in
  [/\ sample E 1 (Some s) (Some x) (World o g t) =
        (Ok ([:: x], [:: s]), World o g t),
      (sample E 1 init_state init_obs (World o' g t)).1 =
      (sample E 1 init_state init_obs (World o g t)).1
    & rng (sample E 1 init_state init_obs (World o' g t)).2 =
      rng (sample E 1 init_state init_obs (World o g t)).2].
Proof.
move=> o'; split; first by [].
  rewrite /sample /sample_with /bind /lift /attr /draw /=.
  case: init_state => [s0|] /=; case: init_obs => [x0|] //=.
  - case: (_means_ o) => [means|] //=; case: (getitem means s0) => [mean|e] //=.
    case: (_covars_ o) => [covars|] //=; case: (getitem covars s0) => [c|e] //=.
    by case: (multivariate_normal _ _ _ _) => [[y|e] g1].
  - by case: (categorical _ _ _) => [[s0|e] g1].
  case: (categorical _ _ _) => [[s0|e] g1] //=.
  case: (_means_ o) => [means|] //=; case: (getitem means s0) => [mean|e] //=.
  case: (_covars_ o) => [covars|] //=; case: (getitem covars s0) => [c|e] //=.
  by case: (multivariate_normal _ _ _ _) => [[y|e] g2].
rewrite /sample /sample_with /bind /lift /attr /draw /=.
case: init_state => [s0|] /=; case: init_obs => [x0|] //=.
- case: (_means_ o) => [means|] //=; case: (getitem means s0) => [mean|e] //=.
  case: (_covars_ o) => [covars|] //=; case: (getitem covars s0) => [c|e] //=.
  by case: (multivariate_normal _ _ _ _) => [[y|e] g1].
- by case: (categorical _ _ _) => [[s0|e] g1].
case: (categorical _ _ _) => [[s0|e] g1] //=.
case: (_means_ o) => [means|] //=; case: (getitem means s0) => [mean|e] //=.
case: (_covars_ o) => [covars|] //=; case: (getitem covars s0) => [c|e] //=.
by case: (multivariate_normal _ _ _ _) => [[y|e] g2].
Qed.

End SampleMore.

Section FitFailure.

Variables (D : nat) (G stats : Type) (E : env D G stats).

(** X18. When restart [k] of [fit] raises, the restarts before it having
    completed, [fit] raises the same exception: no later restart runs,
    and the model is left as the failed restart left it, the best
    parameters found so far not being restored. *)
Theorem fit_propagates_restart_failure (cls : klass D stats) cfg sequences
    (w : world D G) ss k e sf :
  let s := nth (fit_entry D, w) ((fit_entry D, w) :: ss) in
  (k < n_init cfg)%N ->
  (forall i, (i < k)%N ->
     restart E cls cfg sequences i (s i) = (Ok tt, s i.+1)) ->
  restart E cls cfg sequences k (s k) = (Raise e, sf) ->
  fit E cls cfg sequences w = (Raise e, sf.2).
Proof.
move=> s lt_k chain stuck; rewrite /fit /fit_restarts.
by rewrite (@for_stuck _ s _ 0 (n_init cfg) k e sf).
Qed.

End FitFailure.

(** ** In the concrete environment *)

Lemma demo_draws_return d : draws_return (demo_env d).
Proof.
split=> [p g|m c g]; last by exists m, g.+1.
case: p => [|x p] dist_p; last by exists 0%N, g.+1.
by move: dist_p; rewrite /distribution /= big_nil.
Qed.

Lemma init_array_shapes_witness :
  let cfg := demo_cfg 2 1 1 0 in
  exists w',
    _init (demo_env 0) cfg [:: two_points 0] (demo_world 0) = (Ok tt, w') /\
    exists means covars As bs Qs tm pop,
      [/\ [/\ _means_ (self w') = Some means,
              _covars_ (self w') = Some covars,
              _As_ (self w') = Some As, _bs_ (self w') = Some bs
            & _Qs_ (self w') = Some Qs],
          _transmat_ (self w') = Some tm /\ _populations_ (self w') = Some pop,
          (n_states cfg <= size means)%N,
          [/\ size covars = n_states cfg, size As = n_states cfg,
              size bs = n_states cfg & size Qs = n_states cfg]
        & [/\ size tm = n_states cfg,
              all (fun row => size row == n_states cfg) tm
            & size pop = n_states cfg]].
Proof.
move=> cfg.
have init1 : _init (demo_env 0) cfg [:: two_points 0] (demo_world 0) =
    (Ok tt, hot_start (demo_env 0) cfg [:: two_points 0] (demo_world 0)).
  exact: demo_init.
exists (hot_start (demo_env 0) cfg [:: two_points 0] (demo_world 0)).
split; first exact: init1.
exact: init_array_shapes init1.
Defined.

Lemma init_covars_floored_witness :
  let cfg := demo_cfg 2 1 1 0 in
  exists w',
    _init (demo_env 0) cfg [:: two_points 0] (demo_world 0) = (Ok tt, w') /\
    exists covars Qs,
      [/\ _covars_ (self w') = Some covars, _Qs_ (self w') = Some Qs
        & forall k, (k < n_states cfg)%N ->
            [/\ nth 0 covars k =
                  floor_zeros
                    (np_cov (demo_env 0)
                       (flatten (hot_start_pool cfg [:: two_points 0]))),
                nth 0 Qs k = eps *: nth 0 covars k
              & forall i j, nth 0 covars k i j != 0]].
Proof.
move=> cfg.
have init1 : _init (demo_env 0) cfg [:: two_points 0] (demo_world 0) =
    (Ok tt, hot_start (demo_env 0) cfg [:: two_points 0] (demo_world 0)).
  exact: demo_init.
exists (hot_start (demo_env 0) cfg [:: two_points 0] (demo_world 0)).
split; first exact: init1.
exact: init_covars_floored init1.
Defined.

Lemma init_depends_on_pool_and_rng_witness :
  let cfg := pool_one_cfg in
  let s1 := [:: one_point 0; two_points 0] in
  let s2 := [:: one_point 0] in
  let w1 := demo_world 0 in
  let w2 := World (demo_model 0) 0%N [::] in
  [/\ take (n_hotstart_sequences cfg) s1 = take (n_hotstart_sequences cfg) s2,
      rng w1 = rng w2
    & exists w1', _init (demo_env 0) cfg s1 w1 = (Ok tt, w1') /\
      exists w2',
        [/\ _init (demo_env 0) cfg s2 w2 = (Ok tt, w2'),
            model_params (self w2') = model_params (self w1')
          & rng w2' = rng w1']].
Proof.
move=> cfg s1 s2 w1 w2.
have init1 : _init (demo_env 0) cfg s1 w1 =
    (Ok tt, hot_start (demo_env 0) cfg s1 w1).
  by apply: init_run; rewrite /= ?size_nseq.
split; [reflexivity | reflexivity |].
exists (hot_start (demo_env 0) cfg s1 w1); split; first exact: init1.
exact: (@init_depends_on_pool_and_rng _ _ _ (demo_env 0) cfg s1 s2 w1 w2 _
          (erefl _) (erefl _) init1).
Defined.

Lemma process_covariances_closed_form_witness :
  let cfg := demo_cfg 1 1 1 0 in
  let w := World (demo_model 0) 0%N [::] in
  let iter_vars := fun (A Q : mat 1) (N : nat) => Ok (Q + A *m Q *m A^T) in
  let failing := fun (A Q : mat 1) (N : nat) => Raise ValueError in
  [/\ (n_states cfg <= size [:: A_init 1])%N,
      compute_process_covariances iter_vars cfg 1 w =
        (Ok (mkseq (fun=> 1%:M + A_init 1 *m 1%:M *m (A_init 1)^T) 1), w)
    & compute_process_covariances failing cfg 1 w = (Raise ValueError, w)].
Proof.
move=> cfg w iter_vars failing.
have [run _] :=
  @process_covariances_closed_form 1 nat iter_vars cfg 1 w _ _
     (erefl _) (erefl _) isT isT.
have [_ stuck] :=
  @process_covariances_closed_form 1 nat failing cfg 1 w _ _
     (erefl _) (erefl _) isT isT.
split; first reflexivity.
  by apply: run => k; case: k.
by apply: (stuck (fun=> 0) 0%N ValueError).
Defined.

Lemma process_covariances_after_init_witness :
  let cfg := demo_cfg 2 1 1 0 in
  let step := fun (A Q : mat 1) => Q + A *m Q *m A^T in
  let iter_vars := fun (A Q : mat 1) (N : nat) => Ok (step A Q) in
  exists w',
    _init (demo_env 0) cfg [:: two_points 0] (demo_world 0) = (Ok tt, w') /\
    compute_process_covariances iter_vars cfg 1 w' =
    (Ok (nseq (n_states cfg)
           (step (A_init 1)
              (eps *: floor_zeros
                 (np_cov (demo_env 0)
                    (flatten (hot_start_pool cfg [:: two_points 0])))))),
     w').
Proof.
move=> cfg step iter_vars.
have init1 : _init (demo_env 0) cfg [:: two_points 0] (demo_world 0) =
    (Ok tt, hot_start (demo_env 0) cfg [:: two_points 0] (demo_world 0)).
  exact: demo_init.
exists (hot_start (demo_env 0) cfg [:: two_points 0] (demo_world 0)).
split; first exact: init1.
exact: (process_covariances_after_init iter_vars 1 init1).
Defined.

Lemma unfitted_model_raises_TypeError_witness :
  let cfg := demo_cfg 1 1 1 0 in
  let iter_vars := fun (A Q : mat 1) (N : nat) => Ok Q in
  let w := demo_world 0 in
  [/\ (0 < n_states cfg)%N, (1 < 2)%N,
      compute_metastable_wells cfg w = (Raise TypeError, w),
      compute_process_covariances iter_vars cfg 1 w = (Raise TypeError, w)
    & sample (demo_env 0) 2 (Some 0%N) (Some 0) w = (Raise TypeError, w)].
Proof.
move=> cfg iter_vars w.
have [wells covs smp] :=
  @unfitted_model_raises_TypeError nat unit 1 (demo_env 0) iter_vars cfg 1 2
     0%N 0 0%N [::].
split; [reflexivity | reflexivity | exact: wells | exact: covs | exact: smp].
Defined.

Lemma fit_degenerate_loops_witness :
  let cfg0 := demo_cfg 1 0 1 0 in
  let cfg1 := demo_cfg 1 1 0 0 in
  let w := demo_world 0 in
  let w1 := hot_start (demo_env 0) cfg1 [:: one_point 0] w in
  [/\ n_init cfg0 = 0%N,
      fit (demo_env 0) (demo_class 0) cfg0 [:: one_point 0] w =
        (Raise KeyError, w),
      (0 < n_init cfg1)%N /\ n_em_iter cfg1 = 0%N,
      _init (demo_env 0) cfg1 [:: one_point 0] w = (Ok tt, w1)
    & fit (demo_env 0) (demo_class 0) cfg1 [:: one_point 0] w =
        (Raise NameError, w1)].
Proof.
move=> cfg0 cfg1 w w1.
have init1 : _init (demo_env 0) cfg1 [:: one_point 0] w = (Ok tt, w1).
  exact: demo_init.
have [no_restart _] :=
  fit_degenerate_loops (demo_env 0) (demo_class 0) cfg0 [:: one_point 0] w.
have [_ no_iteration] :=
  fit_degenerate_loops (demo_env 0) (demo_class 0) cfg1 [:: one_point 0] w.
split; [reflexivity | exact: no_restart | by split | exact: init1 |].
exact: no_iteration w1 isT (erefl _) init1.
Defined.

Lemma restart_alternates_steps_witness :
  let cfg := demo_cfg 1 1 1 0 in
  exists l' w',
    restart (demo_env 0) (demo_class 0) cfg [:: one_point 0] 0
            (fit_entry 1, demo_world 0) = (Ok tt, (l', w')) /\
    exists lps,
      [/\ size lps = n_em_iter cfg,
          trace w' = trace (demo_world 0) ++ em_events 0 lps,
          fit_logprob l' = drop (n_hotstart cfg) lps
        & curr_logprob l' =
            (if n_em_iter cfg is 0%N then curr_logprob (fit_entry 1)
             else Some (last NegInf lps))].
Proof.
move=> cfg.
have [o' [run _ _]] :=
  @demo_restart 0 0 1 0 [:: one_point 0] 0 (fit_entry 1) (fresh 1) 0 [::] isT isT.
eexists; eexists; split; first exact: run.
exact: (restart_alternates_steps run).
Defined.

Lemma restart_scores_before_last_mstep_witness :
  let cfg := demo_cfg 1 1 1 0 in
  (0 < n_em_iter cfg)%N /\
  exists l' w',
    restart (demo_env 0) (demo_class 0) cfg [:: one_point 0] 0
            (fit_entry 1, demo_world 0) = (Ok tt, (l', w')) /\
    exists m o lp st,
      [/\ do_mstep_attr (demo_class 0) = Some m,
          do_estep (demo_env 0) cfg o (n_em_iter cfg).-1 = Ok (lp, st),
          m cfg st (params cfg) (n_em_iter cfg).-1 o = (Ok tt, self w'),
          curr_logprob l' = Some lp
        & best_params l' =
            (if logp_gt lp (best_loglikelihood (fit_entry 1))
             then Some (take_snapshot (self w') (fit_logprob l'))
             else best_params (fit_entry 1))].
Proof.
move=> cfg; split; first reflexivity.
have [o' [run _ _]] :=
  @demo_restart 0 0 1 0 [:: one_point 0] 0 (fit_entry 1) (fresh 1) 0 [::] isT isT.
eexists; eexists; split; first exact: run.
exact: (restart_scores_before_last_mstep (cfg := cfg) isT run).
Defined.

Lemma fit_logprob_length_witness :
  let cfg := demo_cfg 1 1 1 0 in
  exists w',
    fit (demo_env 0) (demo_class 0) cfg [:: one_point 0] (demo_world 0) =
      (Ok tt, w') /\
    exists fl,
      fit_logprob_ (self w') = Some fl /\
      size fl = (n_em_iter cfg - n_hotstart cfg)%N.
Proof.
move=> cfg.
have [w' fit1] := @demo_fit_once 0 0 0 [:: one_point 0] (fresh 1) 0 [::] isT isT.
exists w'; split; first exact: fit1.
exact: fit_logprob_length fit1.
Defined.

Lemma fit_restores_first_best_restart_witness :
  let cfg := demo_cfg 1 1 1 0 in
  let w := demo_world 0 in
  exists w',
    fit (demo_env 0) (demo_class 0) cfg [:: one_point 0] w = (Ok tt, w') /\
    exists ss r x,
      let s := nth (fit_entry 1, w) ((fit_entry 1, w) :: ss) in
      [/\ size ss = n_init cfg,
          forall i, (i < n_init cfg)%N ->
            restart (demo_env 0) (demo_class 0) cfg [:: one_point 0] i (s i) =
            (Ok tt, s i.+1),
          (r < n_init cfg)%N /\ curr_logprob (s r.+1).1 = Some (Fin x),
          forall i, (i < n_init cfg)%N ->
            exists c, [/\ curr_logprob (s i.+1).1 = Some c,
                          ~~ logp_gt c (Fin x)
                        & (i < r)%N -> logp_gt (Fin x) c]
        & w' = World (set_final_values
                        (take_snapshot (self (s r.+1).2)
                                       (fit_logprob (s r.+1).1))
                        (self (s (n_init cfg)).2))
                     (rng (s (n_init cfg)).2) (trace (s (n_init cfg)).2)].
Proof.
move=> cfg w.
have [w' fit1] := @demo_fit_once 0 0 0 [:: one_point 0] (fresh 1) 0 [::] isT isT.
exists w'; split; first exact: fit1.
exact: fit_restores_first_best_restart fit1.
Defined.

Lemma sample_state_out_of_range_witness :
  let w := World (demo_model 0) 0%N [::] in
  [/\ (1 < 2)%N, _As_ (self w) = Some [:: A_init 1],
      (size [:: A_init 1] <= 1)%N
    & sample (demo_env 0) 2 (Some 1%N) (Some 0) w = (Raise IndexError, w)].
Proof.
move=> w; split; [reflexivity | reflexivity | reflexivity |].
exact: (@sample_state_out_of_range 1 nat unit (demo_env 0) 2 1 0 w
          [:: A_init 1] isT (erefl _) isT).
Defined.

Lemma demo_model_has_states d : has_states 1 (demo_model d).
Proof.
by rewrite /has_states /= /distribution /= big_cons big_nil addr0 eqxx.
Qed.

Lemma sample_returns_states_in_range_witness :
  let w := World (demo_model 0) 0%N [::] in
  [/\ draws_return (demo_env 0), has_states 1 (self w), (0 < 1)%N /\ (0 < 3)%N
    & exists obs hs w',
        [/\ sample (demo_env 0) 3 (Some 0%N) (Some 0) w = (Ok (obs, hs), w'),
            size obs = 3 /\ size hs = 3,
            all (fun s' => (s' < 1)%N) hs
          & self w' = self w /\ trace w' = trace w]].
Proof.
move=> w; split; [exact: demo_draws_return | exact: demo_model_has_states
                 | by split |].
exact: (@sample_returns_states_in_range 1 nat unit (demo_env 0) 1 3 0 0 w
          (demo_draws_return 0) (demo_model_has_states 0) isT isT).
Defined.

Lemma sample_after_init_witness :
  let cfg := demo_cfg 2 1 1 0 in
  [/\ draws_return (demo_env 0), (1 < n_states cfg)%N /\ (0 < 3)%N
    & exists w1,
        _init (demo_env 0) cfg [:: two_points 0] (demo_world 0) = (Ok tt, w1) /\
        exists obs hs w2,
          [/\ sample (demo_env 0) 3 (Some 1%N) (Some 0) w1 = (Ok (obs, hs), w2),
              size obs = 3 /\ size hs = 3,
              all (fun s' => (s' < n_states cfg)%N) hs
            & self w2 = self w1 /\ trace w2 = trace w1]].
Proof.
move=> cfg; split; [exact: demo_draws_return | by split |].
have init1 : _init (demo_env 0) cfg [:: two_points 0] (demo_world 0) =
    (Ok tt, hot_start (demo_env 0) cfg [:: two_points 0] (demo_world 0)).
  exact: demo_init.
exists (hot_start (demo_env 0) cfg [:: two_points 0] (demo_world 0)).
split; first exact: init1.
exact: (sample_after_init (n := 3) (s := 1) 0 (demo_draws_return 0) init1 isT isT).
Defined.

Lemma fit_propagates_restart_failure_witness :
  let cfg := demo_cfg 2 3 1 0 in
  let w := demo_world 0 in
  let sf := (restart_entry (fit_entry 1), only_sequences [:: one_point 0] w) in
  [/\ (0 < n_init cfg)%N,
      restart (demo_env 0) (demo_class 0) cfg [:: one_point 0] 0
              (fit_entry 1, w) = (Raise ValueError, sf)
    & fit (demo_env 0) (demo_class 0) cfg [:: one_point 0] w =
      (Raise ValueError, sf.2)].
Proof.
move=> cfg w sf.
have stuck : restart (demo_env 0) (demo_class 0) cfg [:: one_point 0] 0
                     (fit_entry 1, w) = (Raise ValueError, sf).
  by rewrite restartE init_fewer.
split; [reflexivity | exact: stuck |].
exact: (@fit_propagates_restart_failure 1 nat unit (demo_env 0) (demo_class 0)
          cfg [:: one_point 0] w [::] 0 ValueError sf isT
          (fun i (lt_i : (i < 0)%N) => match notF lt_i with end) stuck).
Defined.
